(** * The software-lifecycle workflow: state record, nodes, decisions, graph

    A shallow embedding of [workflow/state.py], [workflow/nodes.py],
    [workflow/decisions.py], [workflow/graph.py] and [utils/llm.py], with the
    initial state of [app.py] and the step limit of [ramadan.py], and the
    properties of the workflow stated and proved over it. *)

From Stdlib Require Import ZArith String Ascii List Bool Lia.
From stdpp Require Import gmap strings.

Local Open Scope string_scope.
Local Open Scope Z_scope.

(** * The program *)

(** ** Python strings *)

Module PyStr.

Definition nl : string := String (ascii_of_nat 10) EmptyString.

(** [str.isspace] on the code points below 256. *)
Definition is_space (c : ascii) : bool :=
  let n := nat_of_ascii c in
  ((9 <=? n)%nat && (n <=? 13)%nat) || ((28 <=? n)%nat && (n <=? 32)%nat)
  || (n =? 133)%nat || (n =? 160)%nat.

Fixpoint lstrip (s : string) : string :=
  match s with
  | EmptyString => EmptyString
  | String c s' => if is_space c then lstrip s' else s
  end.

Fixpoint rstrip (s : string) : string :=
  match s with
  | EmptyString => EmptyString
  | String c s' =>
      match rstrip s' with
      | EmptyString => if is_space c then EmptyString else String c EmptyString
      | r => String c r
      end
  end.

(** [s.strip()] *)
Definition strip (s : string) : string := rstrip (lstrip s).

(** [s.startswith(p)] *)
Definition startswith (s p : string) : bool := String.prefix p s.

Fixpoint drop (n : nat) (s : string) : string :=
  match n, s with
  | O, _ => s
  | S n', String _ s' => drop n' s'
  | S _, EmptyString => EmptyString
  end.

(** [s.removeprefix(p)] *)
Definition removeprefix (s p : string) : string :=
  if startswith s p then drop (String.length p) s else s.

(** [s.removesuffix(p)]: the text up to the place where what is left is
    exactly [p]; all of [s] when there is no such place. *)
Fixpoint removesuffix (s p : string) : string :=
  if String.eqb s p then EmptyString
  else match s with
       | EmptyString => EmptyString
       | String c s' => String c (removesuffix s' p)
       end.

(** [p in s] *)
Fixpoint contains (s p : string) : bool :=
  startswith s p
  || match s with
     | EmptyString => false
     | String _ s' => contains s' p
     end.

End PyStr.

(** ** The state record ([workflow/state.py])

    [WorkflowState] is a [TypedDict]: at run time a plain dict, so a key can
    be absent (the nodes test ["step_counter" not in state] and read the other
    keys through [state.get]).  The [Optional[str]] keys are kept in one map
    from key to value, where [None] is Python's [None]; [step_counter] and
    [maintenance_updates_log] have their own types. *)

Record WorkflowState := mkState {
  fields : gmap string (option string);
  maintenance_updates_log : option (list string);
  step_counter : option Z
}.

(** [state.get(key)] *)
Definition get (state : WorkflowState) (key : string) : option string :=
  default None (fields state !! key).

(** [state.get(key, "")] *)
Definition get_or_empty (state : WorkflowState) (key : string) : option string :=
  default (Some EmptyString) (fields state !! key).

(** [state[key] = value] *)
Definition set (state : WorkflowState) (key : string) (value : option string)
  : WorkflowState :=
  {| fields := <[key := value]> (fields state);
     maintenance_updates_log := maintenance_updates_log state;
     step_counter := step_counter state |}.

Definition set_step_counter (state : WorkflowState) (n : Z) : WorkflowState :=
  {| fields := fields state;
     maintenance_updates_log := maintenance_updates_log state;
     step_counter := Some n |}.

Definition set_log (state : WorkflowState) (log : list string) : WorkflowState :=
  {| fields := fields state;
     maintenance_updates_log := Some log;
     step_counter := step_counter state |}.

(** Truth value of an [Optional[str]]: [None] and [""] are false. *)
Definition truthy (v : option string) : bool :=
  match v with
  | Some (String _ _) => true
  | _ => false
  end.

(** How an f-string renders an [Optional[str]]. *)
Definition fmt (v : option string) : string :=
  match v with
  | Some s => s
  | None => "None"
  end.

(** [v.startswith(p)] for a value already known to be a string. *)
Definition starts (v : option string) (p : string) : bool :=
  match v with
  | Some s => PyStr.startswith s p
  | None => false
  end.

(** [state.get("step_counter", 0)] *)
Definition counter (state : WorkflowState) : Z := default 0 (step_counter state).

(** The first lines of every node:
    [if "step_counter" not in state: state["step_counter"] = 0]
    [state["step_counter"] += 1] *)
Definition increment_step_counter (state : WorkflowState) : WorkflowState :=
  set_step_counter state (counter state + 1).

(** ** Decision functions ([workflow/decisions.py]) *)

Definition decide_after_po_review (state : WorkflowState) : string :=
  if 25 <? counter state then "create_design"
  else if bool_decide (get state "po_review_outcome" = Some "Approved")
       then "create_design"
       else "revise_user_stories".

Definition decide_after_design_review (state : WorkflowState) : string :=
  if 25 <? counter state then "generate_code"
  else if bool_decide (get state "design_review_outcome" = Some "Approved")
       then "generate_code"
       else "create_design".

Definition decide_after_code_review (state : WorkflowState) : string :=
  if 25 <? counter state then "security_review"
  else if bool_decide (get state "code_review_outcome" = Some "Approved")
       then "security_review"
       else "fix_code_after_code_review".

Definition decide_after_security_review (state : WorkflowState) : string :=
  if 25 <? counter state then "write_test_cases"
  else if bool_decide (get state "security_review_outcome" = Some "Approved")
       then "write_test_cases"
       else "fix_code_after_security".

Definition decide_after_test_cases_review (state : WorkflowState) : string :=
  if 25 <? counter state then "qa_testing"
  else if bool_decide (get state "test_case_review_outcome" = Some "Approved")
       then "qa_testing"
       else "fix_test_cases_after_review".

Definition decide_after_qa_testing (state : WorkflowState) : string :=
  if 25 <? counter state then "deployment"
  else if bool_decide (get state "qa_test_outcome" = Some "Passed")
       then "deployment"
       else "fix_code_after_qa_feedback".

(** ** The collaborators of a node: session state and generation service

    What the nodes reach outside the state record ([utils/llm.py] and the
    Streamlit session): the requirements typed into the page, the quota
    counters, the table of initialised clients, and the generation service.
    The service is given by what its n-th call of the run does: it hands back
    a response, or raises.  Messages written to the page and the progress
    marks are not part of the model. *)

Inductive response : Type :=
  | AIMessage (content : string)   (* an object with a [content] attribute *)
  | Plain (text : string).         (* anything else, read through [str(response)] *)

Inductive reply : Type :=
  | Reply (r : response)
  | Fails (e : string).            (* an exception, with its message *)

Record Env := mkEnv {
  user_requirements_input : option string;  (* [st.session_state.user_requirements_input] *)
  enable_quota_protection : bool;
  max_api_calls : Z;
  api_calls : Z;
  llm_clients : list string;                (* the providers with a client *)
  service : nat -> reply;
  invocations : nat                         (* generation calls made so far *)
}.

Definition with_input (env : Env) (v : string) : Env :=
  mkEnv (Some v) (enable_quota_protection env) (max_api_calls env)
        (api_calls env) (llm_clients env) (service env) (invocations env).

Definition with_api_calls (env : Env) (n : Z) : Env :=
  mkEnv (user_requirements_input env) (enable_quota_protection env)
        (max_api_calls env) n (llm_clients env) (service env) (invocations env).

Definition with_invocations (env : Env) (n : nat) : Env :=
  mkEnv (user_requirements_input env) (enable_quota_protection env)
        (max_api_calls env) (api_calls env) (llm_clients env) (service env) n.

(** A computation of a node: it reads and updates the collaborators and
    either returns a value or raises. *)

Inductive result (A : Type) : Type :=
  | Returned (a : A)
  | Raised (e : string).
Arguments Returned {A} a.
Arguments Raised {A} e.

Definition M (A : Type) : Type := Env -> result A * Env.

Definition ret {A : Type} (a : A) : M A := fun env => (Returned a, env).

Definition bind {A B : Type} (m : M A) (k : A -> M B) : M B :=
  fun env =>
    match m env with
    | (Returned a, env') => k a env'
    | (Raised e, env') => (Raised e, env')
    end.

(** [try: body  except Exception as e: handler] *)
Definition try_except {A : Type} (body : M A) (handler : string -> M A) : M A :=
  fun env =>
    match body env with
    | (Returned a, env') => (Returned a, env')
    | (Raised e, env') => handler e env'
    end.

Notation "'let*' x ':=' m 'in' k" := (bind m (fun x => k))
  (at level 10, x name, m at level 100, k at level 200).

(** [get_llm(state)] of [utils/llm.py]; the client is named by its provider. *)
Definition get_llm (state : WorkflowState) : M (option string) :=
  fun env =>
    let provider := get state "llm_provider" in
    if enable_quota_protection env && (max_api_calls env <=? api_calls env)
    then (Returned None, env)
    else
      let env' := if enable_quota_protection env
                  then with_api_calls env (api_calls env + 1)
                  else env in
      match provider with
      | Some p =>
          if truthy provider && bool_decide (p ∈ llm_clients env)
          then (Returned (Some p), env')
          else (Returned None, env')
      | None => (Returned None, env')
      end.

(** [chain.invoke(...)] and [llm.invoke(...)]: one call of the service. *)
Definition invoke (llm : string) : M response :=
  fun env =>
    let env' := with_invocations env (S (invocations env)) in
    match service env (invocations env) with
    | Reply r => (Returned r, env')
    | Fails e => (Raised e, env')
    end.

(** The text area of [gather_requirements]: it shows the stored input (a
    default when none is stored) and hands it back. *)
Definition text_area : M string :=
  fun env =>
    let shown := default "User wants a login page with username/password fields."
                         (user_requirements_input env) in
    (Returned shown, with_input env shown).

(** [response.content.strip() if hasattr(response, 'content') else str(response)] *)
Definition text_of (r : response) : string :=
  match r with
  | AIMessage content => PyStr.strip content
  | Plain text => text
  end.

(** [s.removeprefix("```python").removesuffix("```").strip()] *)
Definition unfence (s : string) : string :=
  PyStr.strip (PyStr.removesuffix (PyStr.removeprefix s "```python") "```").

(** [response.content.strip().removeprefix("```python").removesuffix("```").strip()
    if hasattr(response, 'content') else str(response)] *)
Definition code_of (r : response) : string :=
  match r with
  | AIMessage content => unfence (PyStr.strip content)
  | Plain text => text
  end.

(** [a or b] *)
Definition py_or (a b : option string) : option string :=
  if truthy a then a else b.

Definition invalid_code (code : option string) : bool :=
  negb (truthy code) || starts code "# Error"
  || starts code "# Code generation skipped".

Definition invalid_tests (tests : option string) : bool :=
  negb (truthy tests) || starts tests "Test case generation skipped"
  || starts tests "Error generating".

(** ** Node functions ([workflow/nodes.py]) *)

Definition gather_requirements (state : WorkflowState) : M WorkflowState :=
  let state := increment_step_counter state in
  let* user_input := text_area in
  if negb (truthy (Some user_input)) then ret state
  else ret (set state "user_requirements" (Some user_input)).

Definition create_user_stories (state : WorkflowState) : M WorkflowState :=
  let state := increment_step_counter state in
  let requirements := get state "user_requirements" in
  if negb (truthy requirements) then ret state
  else
    let* llm := get_llm state in
    match llm with
    | None => ret (set state "user_stories" (Some "User Story generation skipped."))
    | Some llm =>
        try_except
          (let* response := invoke llm in
           let stories := text_of response in
           ret (set state "user_stories" (Some stories)))
          (fun e =>
             ret (set state "user_stories" (Some ("Error generating stories: " ++ e))))
    end.

Definition product_owner_review (state : WorkflowState) : M WorkflowState :=
  let state := increment_step_counter state in
  let user_stories := get_or_empty state "user_stories" in
  if negb (truthy user_stories) then
    let state := set state "po_review_outcome" (Some "Rejected") in
    ret (set state "po_review_feedback" (Some "No user stories provided for review."))
  else
    let outcome := "Approved" in
    let feedback := "User stories meet requirements and are well-structured." in
    let state := set state "po_review_outcome" (Some outcome) in
    ret (set state "po_review_feedback" (Some feedback)).

Definition revise_user_stories (state : WorkflowState) : M WorkflowState :=
  let state := increment_step_counter state in
  let feedback := get_or_empty state "po_review_feedback" in
  let current_stories := get_or_empty state "user_stories" in
  if negb (truthy current_stories) || negb (truthy feedback) then
    ret (set state "user_stories" (Some "Revised user stories (placeholder)"))
  else
    let* llm := get_llm state in
    match llm with
    | None =>
        ret (set state "user_stories"
               (Some (fmt current_stories ++ PyStr.nl ++ PyStr.nl
                      ++ "// Revision skipped - feedback was: " ++ fmt feedback)))
    | Some llm =>
        try_except
          (let* response := invoke llm in
           let revised_stories := text_of response in
           ret (set state "user_stories" (Some revised_stories)))
          (fun e => ret (set state "user_stories" current_stories))
    end.

Definition create_design (state : WorkflowState) : M WorkflowState :=
  let state := increment_step_counter state in
  let user_stories := get_or_empty state "user_stories" in
  let requirements := get_or_empty state "user_requirements" in
  if negb (truthy user_stories) then ret state
  else
    let* llm := get_llm state in
    match llm with
    | None =>
        let design := "Design document generation skipped. Based on requirements:"
                      ++ PyStr.nl ++ fmt requirements in
        ret (set state "design_documents" (Some design))
    | Some llm =>
        try_except
          (let* response := invoke llm in
           let design := text_of response in
           ret (set state "design_documents" (Some design)))
          (fun e =>
             ret (set state "design_documents"
                    (Some ("Error creating design documents: " ++ e))))
    end.

Definition design_review (state : WorkflowState) : M WorkflowState :=
  let state := increment_step_counter state in
  let design := get_or_empty state "design_documents" in
  if negb (truthy design) then
    let state := set state "design_review_outcome" (Some "Rejected") in
    ret (set state "design_review_feedback"
           (Some "No design documents provided for review."))
  else
    let outcome := "Approved" in
    let feedback := "Design documents are comprehensive and align with requirements." in
    let state := set state "design_review_outcome" (Some outcome) in
    ret (set state "design_review_feedback" (Some feedback)).

Definition generate_code (state : WorkflowState) : M WorkflowState :=
  let state := increment_step_counter state in
  let context := py_or (get state "design_documents")
                   (py_or (get state "user_stories") (Some "")) in
  if negb (truthy context) then ret state
  else
    let* llm := get_llm state in
    match llm with
    | None => ret (set state "generated_code" (Some "# Code generation skipped."))
    | Some llm =>
        try_except
          (let* response := invoke llm in
           let code := code_of response in
           ret (set state "generated_code" (Some code)))
          (fun e =>
             ret (set state "generated_code" (Some ("# Error generating code: " ++ e))))
    end.

Definition code_review (state : WorkflowState) : M WorkflowState :=
  let state := increment_step_counter state in
  let code := get_or_empty state "generated_code" in
  if invalid_code code then
    let state := set state "code_review_outcome" (Some "Rejected") in
    ret (set state "code_review_feedback" (Some "No valid code provided for review."))
  else
    let outcome := "Approved" in
    let feedback := "Code is clean, well-documented, and follows best practices." in
    let state := set state "code_review_outcome" (Some outcome) in
    ret (set state "code_review_feedback" (Some feedback)).

Definition fix_code_after_code_review (state : WorkflowState) : M WorkflowState :=
  let state := increment_step_counter state in
  let feedback := get_or_empty state "code_review_feedback" in
  let current_code := get_or_empty state "generated_code" in
  if negb (truthy current_code) || negb (truthy feedback) then
    ret (set state "generated_code" (Some "# Fixed code (placeholder)"))
  else
    let* llm := get_llm state in
    match llm with
    | None =>
        ret (set state "generated_code"
               (Some (fmt current_code ++ PyStr.nl ++ PyStr.nl
                      ++ "# Revision skipped - feedback was: " ++ fmt feedback)))
    | Some llm =>
        try_except
          (let* response := invoke llm in
           let fixed_code := text_of response in
           let fixed_code := unfence fixed_code in
           ret (set state "generated_code" (Some fixed_code)))
          (fun e => ret (set state "generated_code" current_code))
    end.

Definition security_review (state : WorkflowState) : M WorkflowState :=
  let state := increment_step_counter state in
  let code := get_or_empty state "generated_code" in
  if invalid_code code then ret state
  else
    let outcome := "Approved" in
    let feedback := None in
    let state := set state "security_review_outcome" (Some outcome) in
    ret (set state "security_review_feedback" feedback).

Definition fix_code_after_security (state : WorkflowState) : M WorkflowState :=
  let state := increment_step_counter state in
  let feedback := get_or_empty state "security_review_feedback" in
  let current_code := get_or_empty state "generated_code" in
  if negb (truthy current_code) then
    ret (set state "generated_code" (Some "# Security-fixed code (placeholder)"))
  else if truthy feedback then
    let* llm := get_llm state in
    match llm with
    | None =>
        ret (set state "generated_code"
               (Some (fmt current_code ++ PyStr.nl ++ PyStr.nl
                      ++ "# Security fixes skipped - feedback was: " ++ fmt feedback)))
    | Some llm =>
        try_except
          (let* response := invoke llm in
           let fixed_code := text_of response in
           let fixed_code := unfence fixed_code in
           ret (set state "generated_code" (Some fixed_code)))
          (fun e => ret (set state "generated_code" current_code))
    end
  else
    ret (set state "generated_code"
           (Some (fmt current_code ++ PyStr.nl ++ PyStr.nl
                  ++ "# Security enhancements added"))).

Definition write_test_cases (state : WorkflowState) : M WorkflowState :=
  let state := increment_step_counter state in
  let code := get_or_empty state "generated_code" in
  let requirements := get_or_empty state "user_requirements" in
  if invalid_code code then
    ret (set state "test_cases"
           (Some "Test case generation skipped due to missing code."))
  else
    let* llm := get_llm state in
    match llm with
    | None =>
        ret (set state "test_cases"
               (Some "Test case generation skipped due to missing LLM."))
    | Some llm =>
        try_except
          (let* response := invoke llm in
           let tests := text_of response in
           ret (set state "test_cases" (Some tests)))
          (fun e =>
             ret (set state "test_cases" (Some ("Error generating test cases: " ++ e))))
    end.

Definition test_cases_review (state : WorkflowState) : M WorkflowState :=
  let state := increment_step_counter state in
  let tests := get_or_empty state "test_cases" in
  if invalid_tests tests then
    let state := set state "test_case_review_outcome" (Some "Rejected") in
    ret (set state "test_case_review_feedback"
           (Some "No valid test cases provided for review."))
  else
    let outcome := "Approved" in
    let feedback := "Test cases provide good coverage and include edge cases." in
    let state := set state "test_case_review_outcome" (Some outcome) in
    ret (set state "test_case_review_feedback" (Some feedback)).

Definition fix_test_cases_after_review (state : WorkflowState) : M WorkflowState :=
  let state := increment_step_counter state in
  let feedback := get_or_empty state "test_case_review_feedback" in
  let current_tests := get_or_empty state "test_cases" in
  let code := get_or_empty state "generated_code" in
  if negb (truthy current_tests) || negb (truthy feedback) then
    ret (set state "test_cases" (Some "Fixed test cases (placeholder)"))
  else
    let* llm := get_llm state in
    match llm with
    | None =>
        ret (set state "test_cases"
               (Some (fmt current_tests ++ PyStr.nl ++ PyStr.nl
                      ++ "// Revision skipped - feedback was: " ++ fmt feedback)))
    | Some llm =>
        try_except
          (let* response := invoke llm in
           let fixed_tests := text_of response in
           ret (set state "test_cases" (Some fixed_tests)))
          (fun e => ret (set state "test_cases" current_tests))
    end.

Definition qa_testing (state : WorkflowState) : M WorkflowState :=
  let state := increment_step_counter state in
  let code := get_or_empty state "generated_code" in
  let tests := get_or_empty state "test_cases" in
  let '(outcome, feedback) :=
    if negb (truthy code) || invalid_tests tests
    then ("Skipped", Some "QA testing skipped due to missing code or test cases.")
    else ("Passed", None) in
  let state := set state "qa_test_outcome" (Some outcome) in
  ret (set state "qa_test_feedback" feedback).

Definition fix_code_after_qa_feedback (state : WorkflowState) : M WorkflowState :=
  let state := increment_step_counter state in
  let feedback := get_or_empty state "qa_test_feedback" in
  let current_code := get_or_empty state "generated_code" in
  let tests := get_or_empty state "test_cases" in
  if negb (truthy current_code) then
    ret (set state "generated_code" (Some "# QA-fixed code (placeholder)"))
  else if truthy feedback then
    let* llm := get_llm state in
    match llm with
    | None =>
        ret (set state "generated_code"
               (Some (fmt current_code ++ PyStr.nl ++ PyStr.nl
                      ++ "# QA fixes skipped - feedback was: " ++ fmt feedback)))
    | Some llm =>
        let* state :=
          try_except
            (let* response := invoke llm in
             let fixed_code := text_of response in
             let fixed_code := unfence fixed_code in
             ret (set state "generated_code" (Some fixed_code)))
            (fun e => ret (set state "generated_code" current_code)) in
        ret (set state "qa_test_outcome" (Some "Passed"))
    end
  else
    let state := set state "generated_code" current_code in
    ret (set state "qa_test_outcome" (Some "Passed")).

Definition deployment (state : WorkflowState) : M WorkflowState :=
  let state := increment_step_counter state in
  let code := get_or_empty state "generated_code" in
  let qa_outcome := get_or_empty state "qa_test_outcome" in
  let status :=
    if negb (truthy code) || negb (truthy qa_outcome)
       || bool_decide (qa_outcome = Some "Failed")
       || bool_decide (qa_outcome = Some "Skipped")
    then "Deployment skipped due to issues in code or QA testing."
    else "Deployed to Staging Environment. Verification tests passed." in
  ret (set state "deployment_status" (Some status)).

Definition monitoring_and_feedback (state : WorkflowState) : M WorkflowState :=
  let state := increment_step_counter state in
  let requirements := get_or_empty state "user_requirements" in
  let code := get_or_empty state "generated_code" in
  let* feedback :=
    if invalid_code code then ret "Monitoring skipped due to missing code."
    else
      let* llm := get_llm state in
      match llm with
      | None => ret "Monitoring feedback skipped due to missing LLM."
      | Some llm =>
          try_except
            (let* response := invoke llm in
             ret (text_of response))
            (fun e => ret ("Error during monitoring: " ++ e))
      end in
  ret (set state "monitoring_feedback" (Some feedback)).

Definition maintenance_and_updates (state : WorkflowState) : M WorkflowState :=
  let state := increment_step_counter state in
  let log_entry :=
    "Cycle Complete. Monitoring feedback processed and ticket created to address issues." in
  let current_log := default [] (maintenance_updates_log state) in
  let state := set_log state (current_log ++ [log_entry])%list in
  ret (set_step_counter state (-1)).

(** ** The graph ([workflow/graph.py]) *)

Inductive Node : Type :=
  | n_gather_requirements
  | n_create_user_stories
  | n_product_owner_review
  | n_revise_user_stories
  | n_create_design
  | n_design_review
  | n_generate_code
  | n_code_review
  | n_fix_code_after_code_review
  | n_security_review
  | n_fix_code_after_security
  | n_write_test_cases
  | n_test_cases_review
  | n_fix_test_cases_after_review
  | n_qa_testing
  | n_fix_code_after_qa_feedback
  | n_deployment
  | n_monitoring_and_feedback
  | n_maintenance_and_updates.

#[global] Instance Node_eq_dec : EqDecision Node.
Proof. solve_decision. Defined.

Definition all_nodes : list Node :=
  [ n_gather_requirements; n_create_user_stories; n_product_owner_review;
    n_revise_user_stories; n_create_design; n_design_review; n_generate_code;
    n_code_review; n_fix_code_after_code_review; n_security_review;
    n_fix_code_after_security; n_write_test_cases; n_test_cases_review;
    n_fix_test_cases_after_review; n_qa_testing; n_fix_code_after_qa_feedback;
    n_deployment; n_monitoring_and_feedback; n_maintenance_and_updates ].

(** [workflow.add_node(name, function)]: the name and the function of a node. *)
Definition node_name (n : Node) : string :=
  match n with
  | n_gather_requirements => "gather_requirements"
  | n_create_user_stories => "create_user_stories"
  | n_product_owner_review => "product_owner_review"
  | n_revise_user_stories => "revise_user_stories"
  | n_create_design => "create_design"
  | n_design_review => "design_review"
  | n_generate_code => "generate_code"
  | n_code_review => "code_review"
  | n_fix_code_after_code_review => "fix_code_after_code_review"
  | n_security_review => "security_review"
  | n_fix_code_after_security => "fix_code_after_security"
  | n_write_test_cases => "write_test_cases"
  | n_test_cases_review => "test_cases_review"
  | n_fix_test_cases_after_review => "fix_test_cases_after_review"
  | n_qa_testing => "qa_testing"
  | n_fix_code_after_qa_feedback => "fix_code_after_qa_feedback"
  | n_deployment => "deployment"
  | n_monitoring_and_feedback => "monitoring_and_feedback"
  | n_maintenance_and_updates => "maintenance_and_updates"
  end.

Definition node_function (n : Node) : WorkflowState -> M WorkflowState :=
  match n with
  | n_gather_requirements => gather_requirements
  | n_create_user_stories => create_user_stories
  | n_product_owner_review => product_owner_review
  | n_revise_user_stories => revise_user_stories
  | n_create_design => create_design
  | n_design_review => design_review
  | n_generate_code => generate_code
  | n_code_review => code_review
  | n_fix_code_after_code_review => fix_code_after_code_review
  | n_security_review => security_review
  | n_fix_code_after_security => fix_code_after_security
  | n_write_test_cases => write_test_cases
  | n_test_cases_review => test_cases_review
  | n_fix_test_cases_after_review => fix_test_cases_after_review
  | n_qa_testing => qa_testing
  | n_fix_code_after_qa_feedback => fix_code_after_qa_feedback
  | n_deployment => deployment
  | n_monitoring_and_feedback => monitoring_and_feedback
  | n_maintenance_and_updates => maintenance_and_updates
  end.

Definition node_named (name : string) : option Node :=
  List.find (fun n => String.eqb (node_name n) name) all_nodes.

(** What leaves a node: [add_edge(source, target)],
    [add_conditional_edges(source, path, path_map)] or [add_edge(source, END)]. *)
Inductive successor : Type :=
  | Edge (target : string)
  | Conditional (path : WorkflowState -> string) (path_map : list (string * string))
  | To_END.

Definition entry_point : string := "gather_requirements".

Definition edges (source : Node) : successor :=
  match source with
  | n_gather_requirements => Edge "create_user_stories"
  | n_create_user_stories => Edge "product_owner_review"
  | n_product_owner_review =>
      Conditional decide_after_po_review
        [ ("create_design", "create_design");
          ("revise_user_stories", "revise_user_stories") ]
  | n_revise_user_stories => Edge "product_owner_review"
  | n_create_design => Edge "design_review"
  | n_design_review =>
      Conditional decide_after_design_review
        [ ("generate_code", "generate_code"); ("create_design", "create_design") ]
  | n_generate_code => Edge "code_review"
  | n_code_review =>
      Conditional decide_after_code_review
        [ ("security_review", "security_review");
          ("fix_code_after_code_review", "fix_code_after_code_review") ]
  | n_fix_code_after_code_review => Edge "code_review"
  | n_security_review =>
      Conditional decide_after_security_review
        [ ("write_test_cases", "write_test_cases");
          ("fix_code_after_security", "fix_code_after_security") ]
  | n_fix_code_after_security => Edge "security_review"
  | n_write_test_cases => Edge "test_cases_review"
  | n_test_cases_review =>
      Conditional decide_after_test_cases_review
        [ ("qa_testing", "qa_testing");
          ("fix_test_cases_after_review", "fix_test_cases_after_review") ]
  | n_fix_test_cases_after_review => Edge "test_cases_review"
  | n_qa_testing =>
      Conditional decide_after_qa_testing
        [ ("deployment", "deployment");
          ("fix_code_after_qa_feedback", "fix_code_after_qa_feedback") ]
  | n_fix_code_after_qa_feedback => Edge "qa_testing"
  | n_deployment => Edge "monitoring_and_feedback"
  | n_monitoring_and_feedback => Edge "maintenance_and_updates"
  | n_maintenance_and_updates => To_END
  end.

Fixpoint assoc (key : string) (table : list (string * string)) : option string :=
  match table with
  | [] => None
  | (k, v) :: rest => if String.eqb k key then Some v else assoc key rest
  end.

(** Where the run goes after [source], in the state [source] left. *)
Inductive destination : Type :=
  | Goto (next : Node)
  | Stop
  | Unknown_target (name : string).

Definition destination_of (source : Node) (state : WorkflowState) : destination :=
  match edges source with
  | To_END => Stop
  | Edge target =>
      match node_named target with
      | Some next => Goto next
      | None => Unknown_target target
      end
  | Conditional path path_map =>
      let name := path state in
      match assoc name path_map with
      | Some target =>
          match node_named target with
          | Some next => Goto next
          | None => Unknown_target target
          end
      | None => Unknown_target name
      end
  end.

(** The state after a node: the keys the node returned replace the old ones,
    except [maintenance_updates_log], declared with the reducer
    [operator.add] in [workflow/state.py]. *)
Definition merge (state patch : WorkflowState) : WorkflowState :=
  {| fields := fields patch ∪ fields state;
     maintenance_updates_log :=
       match maintenance_updates_log patch with
       | Some added => Some (default [] (maintenance_updates_log state) ++ added)%list
       | None => maintenance_updates_log state
       end;
     step_counter :=
       match step_counter patch with
       | Some n => Some n
       | None => step_counter state
       end |}.

Inductive run_result : Type :=
  | Finished (final : WorkflowState) (trace : list Node)
  | RecursionLimitExceeded
  | Failed (e : string).

(** Modelled from the spec: the dispatcher of the compiled graph (the
    [invoke] of the graph library, which [workflow/graph.py] only configures)
    is not part of the sources.  As the specification describes it: invoke the
    current node, merge what it returns, stop after the node that leads to
    END, otherwise follow the fixed edge or the decision function; at most
    [limit] node invocations, after which the run fails.  The trace lists the
    nodes invoked, in order. *)
Fixpoint run_from (limit : nat) (current : Node) (state : WorkflowState)
  (env : Env) : run_result * Env :=
  match limit with
  | O => (RecursionLimitExceeded, env)
  | S limit' =>
      match node_function current state env with
      | (Raised e, env') => (Failed e, env')
      | (Returned patch, env') =>
          let state' := merge state patch in
          match destination_of current state' with
          | Stop => (Finished state' [current], env')
          | Unknown_target name => (Failed name, env')
          | Goto next =>
              match run_from limit' next state' env' with
              | (Finished final trace, env'') =>
                  (Finished final (current :: trace), env'')
              | other => other
              end
          end
      end
  end.

(** [run(initial_state)], with the limit as [config={"recursion_limit": ...}]. *)
Definition run (limit : nat) (initial_state : WorkflowState) (env : Env)
  : run_result * Env :=
  match node_named entry_point with
  | Some entry => run_from limit entry initial_state env
  | None => (Failed entry_point, env)
  end.

(** [max_steps_allowed] of [ramadan.py]. *)
Definition max_steps_allowed : nat := 30.

(** The state the page starts a run with ([app.py]). *)
Definition initial_state (user_requirements : string)
  (selected_llm_provider : option string) : WorkflowState :=
  {| fields :=
       list_to_map
         [ ("user_requirements", Some user_requirements);
           ("user_stories", None);
           ("po_review_outcome", None);
           ("po_review_feedback", None);
           ("design_documents", None);
           ("design_review_outcome", None);
           ("design_review_feedback", None);
           ("generated_code", None);
           ("code_review_outcome", None);
           ("code_review_feedback", None);
           ("security_review_outcome", None);
           ("security_review_feedback", None);
           ("test_cases", None);
           ("test_case_review_outcome", None);
           ("test_case_review_feedback", None);
           ("qa_test_outcome", None);
           ("qa_test_feedback", None);
           ("deployment_status", None);
           ("monitoring_feedback", None);
           ("llm_provider", selected_llm_provider) ];
     maintenance_updates_log := Some [];
     step_counter := Some 0 |}.

(** ** The progress tracker ([components/progress.py])

    The tracker keeps two keys of the Streamlit session: the set
    [completed_steps] and the index [highest_step]; either can be absent. *)

Definition WORKFLOW_STEPS : list string :=
  [ "requirements"; "user_stories"; "user_stories_review"; "design";
    "design_review"; "code"; "code_review"; "security"; "testing";
    "test_review"; "qa"; "deployment"; "monitoring" ].

Record Tracker := mkTracker {
  completed_steps : option (gset string);
  highest_step : option Z
}.

(** [steps.index(step) if step in steps else -1] *)
Fixpoint index_or_minus_one (steps : list string) (step : string) : Z :=
  match steps with
  | [] => -1
  | first :: rest =>
      if String.eqb first step then 0
      else let i := index_or_minus_one rest step in
           if i <? 0 then -1 else i + 1
  end.

Definition mark_step_complete (step : string) (session : Tracker) : Tracker :=
  let completed := default ∅ (completed_steps session) in
  let completed := completed ∪ {[ step ]} in
  let highest := default (-1) (highest_step session) in
  let current_step_index := index_or_minus_one WORKFLOW_STEPS step in
  {| completed_steps := Some completed;
     highest_step := Some (if highest <? current_step_index
                           then current_step_index else highest) |}.

(** What [render_progress_tracker] shows for a step. *)
Inductive indicator : Type :=
  | Completed     (* the check mark *)
  | Next_step     (* the hourglass *)
  | Future_step.  (* the circle *)

#[global] Instance indicator_eq_dec : EqDecision indicator.
Proof. solve_decision. Defined.

Fixpoint indicators (completed : gset string) (highest : option Z) (i : Z)
  (steps : list string) : list indicator :=
  match steps with
  | [] => []
  | step_id :: rest =>
      (if bool_decide (step_id ∈ completed) then Completed
       else match highest with
            | Some h => if i =? h + 1 then Next_step else Future_step
            | None => Future_step
            end)
      :: indicators completed highest (i + 1) rest
  end.

(** [render_progress_tracker]: the session it leaves, the percentage in the
    text of the bar and the indicator of every step.  The percentage is
    [int(completed_count / total_steps * 100)]; with 13 steps the quotient
    times 100 is a whole number only at 0 and 13, so the floating-point
    value truncates like the exact one. *)
Definition render_progress_tracker (session : Tracker)
  : Tracker * Z * list indicator :=
  let completed := default ∅ (completed_steps session) in
  let session := {| completed_steps := Some completed;
                    highest_step := highest_step session |} in
  let total_steps := Z.of_nat (length WORKFLOW_STEPS) in
  let completed_count :=
    Z.of_nat (length (filter (fun step => step ∈ completed) WORKFLOW_STEPS)) in
  let percent := if 0 <? total_steps then (completed_count * 100) / total_steps else 0 in
  (session, percent, indicators completed (highest_step session) 0 WORKFLOW_STEPS).

(** The reset at the start of a run ([app.py]): both keys are reset where
    they exist. *)
Definition reset (session : Tracker) : Tracker :=
  {| completed_steps := match completed_steps session with
                        | Some _ => Some ∅
                        | None => None
                        end;
     highest_step := match highest_step session with
                     | Some _ => Some (-1)
                     | None => None
                     end |}.

(** ** The providers ([utils/llm.py])

    The module keeps the table of clients, one flag for each provider and the
    default provider.  A client is named by its provider; what the
    constructor of a client does (it returns, or it raises) is a parameter. *)

Record Providers := mkProviders {
  clients : list string;
  groq_available : bool;
  google_available : bool;
  DEFAULT_LLM_PROVIDER : option string
}.

(** [llm_clients[provider] = client], on the keys of the table. *)
Definition store (provider : string) (table : list string) : list string :=
  if bool_decide (provider ∈ table) then table else (table ++ [provider])%list.

(** [initialize_llm_clients()]: [groq_api_key] and [google_api_key] are the
    keys found in the environment ([""] when there is none), [groq_client] and
    [google_client] tell whether the constructor returns. *)
Definition initialize_llm_clients (groq_api_key google_api_key : string)
  (groq_client google_client : bool) (module : Providers)
  : list string * Providers :=
  let module :=
    if truthy (Some groq_api_key) && groq_client
    then mkProviders (store "groq" (clients module)) true
           (google_available module) (DEFAULT_LLM_PROVIDER module)
    else module in
  let module :=
    if truthy (Some google_api_key) && google_client
    then mkProviders (store "google" (clients module)) (groq_available module)
           true (DEFAULT_LLM_PROVIDER module)
    else module in
  let available_providers :=
    ((if groq_available module then ["groq"] else [])
     ++ (if google_available module then ["google"] else []))%list in
  (available_providers,
   mkProviders (clients module) (groq_available module) (google_available module)
     (match available_providers with
      | [] => None
      | first :: _ => Some first
      end)).

(** The module as it is loaded. *)
Definition no_providers : Providers := mkProviders [] false false None.

(** * Vocabulary of the properties *)

(** ** Decision inputs and the routing table *)

(** A decision input with [step_counter = 26] and every outcome Rejected. *)
Definition rejected_at_26 : WorkflowState :=
  {| fields :=
       list_to_map
         [ ("po_review_outcome", Some "Rejected");
           ("design_review_outcome", Some "Rejected");
           ("code_review_outcome", Some "Rejected");
           ("security_review_outcome", Some "Rejected");
           ("test_case_review_outcome", Some "Rejected");
           ("qa_test_outcome", Some "Rejected") ];
     maintenance_updates_log := Some [];
     step_counter := Some 26 |}.

(** The routing table of the specification: for each review stage, the
    decision function that follows it, the outcome key it reads and the
    success value, the success-branch stage and the remediation stage. *)
Record gate := mkGate {
  review : Node;
  decision : WorkflowState -> string;
  outcome_key : string;
  feedback_key : string;
  success_value : string;
  success_branch : Node;
  remediation : Node
}.

Definition gates : list gate :=
  [ mkGate n_product_owner_review decide_after_po_review
      "po_review_outcome" "po_review_feedback" "Approved"
      n_create_design n_revise_user_stories;
    mkGate n_design_review decide_after_design_review
      "design_review_outcome" "design_review_feedback" "Approved"
      n_generate_code n_create_design;
    mkGate n_code_review decide_after_code_review
      "code_review_outcome" "code_review_feedback" "Approved"
      n_security_review n_fix_code_after_code_review;
    mkGate n_security_review decide_after_security_review
      "security_review_outcome" "security_review_feedback" "Approved"
      n_write_test_cases n_fix_code_after_security;
    mkGate n_test_cases_review decide_after_test_cases_review
      "test_case_review_outcome" "test_case_review_feedback" "Approved"
      n_qa_testing n_fix_test_cases_after_review;
    mkGate n_qa_testing decide_after_qa_testing
      "qa_test_outcome" "qa_test_feedback" "Passed"
      n_deployment n_fix_code_after_qa_feedback ].

(** ** Statuses, sessions and states of the statements *)

Definition skipped_status : string :=
  "Deployment skipped due to issues in code or QA testing.".
Definition deployed_status : string :=
  "Deployed to Staging Environment. Verification tests passed.".

(** A value is missing when the key is absent, holds [None] or holds the
    empty string: the cases Python's [not value] accepts. *)
Definition missing (v : option string) : Prop := truthy v = false.

(** A session with one client whose every call answers [content]. *)
Definition answering (content : string) : Env :=
  mkEnv (Some "Build a login page with SSO") true 25 0 ["groq"]
        (fun _ => Reply (AIMessage content)) 0.

(** A session with one client whose every call raises [message]. *)
Definition failing (message : string) : Env :=
  mkEnv (Some "Build a login page with SSO") true 25 0 ["groq"]
        (fun _ => Fails message) 0.

(** A session without any client. *)
Definition without_clients : Env :=
  mkEnv (Some "Build a login page with SSO") true 25 0 []
        (fun _ => Fails "unreachable") 0.

(** The state of a run that starts on the page when no provider can be
    selected. *)
Definition state_without_provider : WorkflowState :=
  initial_state "Build a login page with SSO" None.

(** The state of a run that starts on the page. *)
Definition fresh_state : WorkflowState :=
  initial_state "Build a login page with SSO" (Some "groq").

Definition state_with_code : WorkflowState :=
  set fresh_state "generated_code" (Some "print(1)").

(** The terminal stage. *)
Definition terminal (n : Node) : bool :=
  bool_decide (n = n_maintenance_and_updates).

(** What a node call leaves in [step_counter], given what it found. *)
Definition counter_after (n : Node) (before : WorkflowState) : Z :=
  if terminal n then -1 else counter before + 1.

(** The entry [maintenance_and_updates] appends to the log. *)
Definition log_entry : string :=
  "Cycle Complete. Monitoring feedback processed and ticket created to address issues.".

(** ** Review stages: outcome and feedback *)

(** The comment a review stage stores as feedback when it approves; [None]
    where it stores Python's [None]. *)
Definition approval_feedback (n : Node) : option string :=
  match n with
  | n_product_owner_review =>
      Some "User stories meet requirements and are well-structured."
  | n_design_review =>
      Some "Design documents are comprehensive and align with requirements."
  | n_code_review =>
      Some "Code is clean, well-documented, and follows best practices."
  | n_test_cases_review =>
      Some "Test cases provide good coverage and include edge cases."
  | _ => None
  end.

Definition state_with_stories : WorkflowState :=
  set fresh_state "user_stories" (Some "As a user, I want to log in.").

(** ** Failure of the generation call *)

(** What a node does with its artifact when its generation call raises:
    it stores a sentence that starts with [prefix] and carries the message of
    the exception, or it keeps the artifact it was given. *)
Inductive failure_policy : Type :=
  | Marks (key prefix : string)
  | Keeps (key : string).

(** The nodes that call the generation service, with their policy. *)
Definition on_failure (n : Node) : option failure_policy :=
  match n with
  | n_create_user_stories => Some (Marks "user_stories" "Error generating stories: ")
  | n_revise_user_stories => Some (Keeps "user_stories")
  | n_create_design =>
      Some (Marks "design_documents" "Error creating design documents: ")
  | n_generate_code => Some (Marks "generated_code" "# Error generating code: ")
  | n_fix_code_after_code_review => Some (Keeps "generated_code")
  | n_fix_code_after_security => Some (Keeps "generated_code")
  | n_write_test_cases => Some (Marks "test_cases" "Error generating test cases: ")
  | n_fix_test_cases_after_review => Some (Keeps "test_cases")
  | n_fix_code_after_qa_feedback => Some (Keeps "generated_code")
  | n_monitoring_and_feedback =>
      Some (Marks "monitoring_feedback" "Error during monitoring: ")
  | _ => None
  end.

(** A value that shows it stands in for a missing result. *)
Definition visibly_marked (v : option string) : bool :=
  match v with
  | Some s =>
      PyStr.contains s "Error" || PyStr.contains s "skipped"
      || PyStr.contains s "placeholder"
  | None => false
  end.

Definition state_with_rejected_stories : WorkflowState :=
  set state_with_stories "po_review_feedback" (Some "Add single sign-on.").

Definition state_with_design : WorkflowState :=
  set state_with_stories "design_documents" (Some "One page, one form.").

(** ** Runs *)

(** The run from [n] finishes at the terminal stage after at most [bound]
    node invocations. *)
Definition reaches_terminal (limit : nat) (n : Node) (state : WorkflowState)
  (env : Env) (bound : nat) : Prop :=
  exists (final : WorkflowState) (trace : list Node) (env' : Env),
    run_from limit n state env = (Finished final trace, env')
    /\ (length trace <= bound)%nat
    /\ last trace = Some n_maintenance_and_updates.

(** The stage that follows [n] on the success branches, and the number of
    stages from [n] to the end along them. *)
Definition forced_next (n : Node) : option Node :=
  match n with
  | n_gather_requirements => Some n_create_user_stories
  | n_create_user_stories => Some n_product_owner_review
  | n_product_owner_review => Some n_create_design
  | n_revise_user_stories => Some n_product_owner_review
  | n_create_design => Some n_design_review
  | n_design_review => Some n_generate_code
  | n_generate_code => Some n_code_review
  | n_code_review => Some n_security_review
  | n_fix_code_after_code_review => Some n_code_review
  | n_security_review => Some n_write_test_cases
  | n_fix_code_after_security => Some n_security_review
  | n_write_test_cases => Some n_test_cases_review
  | n_test_cases_review => Some n_qa_testing
  | n_fix_test_cases_after_review => Some n_test_cases_review
  | n_qa_testing => Some n_deployment
  | n_fix_code_after_qa_feedback => Some n_qa_testing
  | n_deployment => Some n_monitoring_and_feedback
  | n_monitoring_and_feedback => Some n_maintenance_and_updates
  | n_maintenance_and_updates => None
  end.

Definition remaining (n : Node) : nat :=
  match n with
  | n_gather_requirements => 14
  | n_create_user_stories => 13
  | n_product_owner_review => 12
  | n_revise_user_stories => 13
  | n_create_design => 11
  | n_design_review => 10
  | n_generate_code => 9
  | n_code_review => 8
  | n_fix_code_after_code_review => 9
  | n_security_review => 7
  | n_fix_code_after_security => 8
  | n_write_test_cases => 6
  | n_test_cases_review => 5
  | n_fix_test_cases_after_review => 6
  | n_qa_testing => 4
  | n_fix_code_after_qa_feedback => 5
  | n_deployment => 3
  | n_monitoring_and_feedback => 2
  | n_maintenance_and_updates => 1
  end.

(** The stages from [create_design] on: once there, a run never goes back to
    the user stories. *)
Definition late (n : Node) : bool :=
  match n with
  | n_gather_requirements | n_create_user_stories
  | n_product_owner_review | n_revise_user_stories => false
  | _ => true
  end.

(** ** Runs without the generation service *)

(** [get_llm] hands out no client for [provider]: the quota is used up, or
    no client is stored under that name. *)
Definition unavailable (env : Env) (provider : option string) : bool :=
  (enable_quota_protection env && (max_api_calls env <=? api_calls env))
  || negb match provider with
          | Some p => truthy provider && bool_decide (p ∈ llm_clients env)
          | None => false
          end.

(** The session with the requirements [input] and no generation at all. *)
Definition offline (input : option string) : Env :=
  mkEnv input true 0 0 [] (fun _ => Fails "unavailable") 0.

(** A computation that, while the service is unavailable, returns what it
    returns in the offline session and leaves the service unavailable. *)
Definition service_free {A : Type} (provider : option string) (m : M A) : Prop :=
  forall env : Env,
    unavailable env provider = true ->
    exists (a : A) (env' : Env),
      m env = (Returned a, env')
      /\ m (offline (user_requirements_input env))
         = (Returned a, offline (user_requirements_input env'))
      /\ unavailable env' provider = true.

Definition skipped_code : string := "# Code generation skipped.".

(** The note [fix_code_after_code_review] appends when there is no client. *)
Definition revision_note : string :=
  PyStr.nl ++ PyStr.nl
  ++ "# Revision skipped - feedback was: No valid code provided for review.".

Fixpoint notes (k : nat) : string :=
  match k with
  | O => ""
  | S k' => revision_note ++ notes k'
  end.

Definition review_loop : list Node := [n_code_review; n_fix_code_after_code_review].

(** The stages of a run without the generation service. *)
Definition trace_without_service : list Node :=
  [ n_gather_requirements; n_create_user_stories; n_product_owner_review;
    n_create_design; n_design_review; n_generate_code ]
  ++ concat (replicate 10 review_loop)
  ++ [ n_code_review; n_security_review; n_write_test_cases; n_test_cases_review;
       n_qa_testing; n_deployment; n_monitoring_and_feedback;
       n_maintenance_and_updates ].

(** ** Runs with a service whose replies pass every review *)

(** A reply that gives non-empty user stories and design, code that
    [code_review] accepts and test cases that [test_cases_review] accepts. *)
Definition usable (r : reply) : bool :=
  match r with
  | Reply response =>
      truthy (Some (text_of response))
      && negb (invalid_tests (Some (text_of response)))
      && negb (invalid_code (Some (code_of response)))
  | Fails _ => false
  end.

(** [get_llm] hands out the client of [provider] for [calls] more calls, and
    every reply of the service is usable. *)
Definition serviceable (env : Env) (provider : option string) (calls : Z) : Prop :=
  (exists p, provider = Some p /\ p <> "" /\ p ∈ llm_clients env)
  /\ (enable_quota_protection env = false \/ api_calls env + calls <= max_api_calls env)
  /\ forall k, usable (service env k) = true.

(** The generation calls from [n] to the end along the success branches. *)
Definition calls_needed (n : Node) : Z :=
  match n with
  | n_gather_requirements | n_create_user_stories => 5
  | n_product_owner_review | n_create_design => 4
  | n_design_review | n_generate_code => 3
  | n_code_review | n_security_review | n_write_test_cases => 2
  | n_test_cases_review | n_qa_testing | n_deployment
  | n_monitoring_and_feedback => 1
  | _ => 0
  end.

(** The state delivered by a straight run. *)
Definition delivered (state : WorkflowState) : Prop :=
  get state "deployment_status" = Some deployed_status.

(** What a stage of the straight run finds in the state. *)
Definition ready (n : Node) (state : WorkflowState) : Prop :=
  match n with
  | n_gather_requirements | n_create_user_stories =>
      truthy (get state "user_requirements") = true
  | n_product_owner_review | n_create_design =>
      truthy (get state "user_stories") = true
  | n_design_review | n_generate_code =>
      truthy (get state "design_documents") = true
  | n_code_review | n_security_review | n_write_test_cases =>
      invalid_code (get state "generated_code") = false
  | n_test_cases_review | n_qa_testing =>
      invalid_code (get state "generated_code") = false
      /\ invalid_tests (get state "test_cases") = false
  | n_deployment =>
      invalid_code (get state "generated_code") = false
      /\ get state "qa_test_outcome" = Some "Passed"
  | n_monitoring_and_feedback =>
      invalid_code (get state "generated_code") = false /\ delivered state
  | n_maintenance_and_updates => delivered state
  | _ => False
  end.

(** The stages from [n] to the end along the success branches. *)
Fixpoint path_from (fuel : nat) (n : Node) : list Node :=
  match fuel with
  | O => []
  | S fuel' =>
      n :: match forced_next n with
           | Some next => path_from fuel' next
           | None => []
           end
  end.

Definition straight_trace : list Node :=
  [ n_gather_requirements; n_create_user_stories; n_product_owner_review;
    n_create_design; n_design_review; n_generate_code; n_code_review;
    n_security_review; n_write_test_cases; n_test_cases_review; n_qa_testing;
    n_deployment; n_monitoring_and_feedback; n_maintenance_and_updates ].

(** ** The graph as a relation between stages *)

(** The names a stage can hand over to: the target of its edge, or the
    targets of its path map. *)
Definition targets (source : Node) : list string :=
  match edges source with
  | Edge target => [target]
  | Conditional _ path_map => map snd path_map
  | To_END => []
  end.

(** The stages one edge away from [source]. *)
Definition successors (source : Node) : list Node :=
  omap node_named (targets source).

(** [target] is at most [steps] edges away from [source]. *)
Fixpoint within (steps : nat) (source target : Node) : bool :=
  bool_decide (source = target)
  || match steps with
     | O => false
     | S steps' => existsb (fun next => within steps' next target) (successors source)
     end.

(** Each stage of the list is followed by one of its successors. *)
Fixpoint follows_edges (trace : list Node) : Prop :=
  match trace with
  | n :: (next :: _) as rest => In next (successors n) /\ follows_edges rest
  | _ => True
  end.

(** ** What a stage writes *)

(** The keys a stage function assigns. *)
Definition writes (n : Node) : list string :=
  match n with
  | n_gather_requirements => ["user_requirements"]
  | n_create_user_stories | n_revise_user_stories => ["user_stories"]
  | n_product_owner_review => ["po_review_outcome"; "po_review_feedback"]
  | n_create_design => ["design_documents"]
  | n_design_review => ["design_review_outcome"; "design_review_feedback"]
  | n_generate_code | n_fix_code_after_code_review | n_fix_code_after_security =>
      ["generated_code"]
  | n_code_review => ["code_review_outcome"; "code_review_feedback"]
  | n_security_review => ["security_review_outcome"; "security_review_feedback"]
  | n_write_test_cases | n_fix_test_cases_after_review => ["test_cases"]
  | n_test_cases_review => ["test_case_review_outcome"; "test_case_review_feedback"]
  | n_qa_testing => ["qa_test_outcome"; "qa_test_feedback"]
  | n_fix_code_after_qa_feedback => ["generated_code"; "qa_test_outcome"]
  | n_deployment => ["deployment_status"]
  | n_monitoring_and_feedback => ["monitoring_feedback"]
  | n_maintenance_and_updates => []
  end.

(** ** The quota over a run *)

(** What a computation may do to the session: the settings stay, the call
    counters only grow, and with the protection on every generation call is
    paid for and the counter stays within the maximum. *)
Definition within_budget (env env' : Env) : Prop :=
  enable_quota_protection env' = enable_quota_protection env
  /\ max_api_calls env' = max_api_calls env
  /\ llm_clients env' = llm_clients env
  /\ (invocations env <= invocations env')%nat
  /\ api_calls env <= api_calls env'
  /\ (enable_quota_protection env = true ->
      Z.of_nat (invocations env') - Z.of_nat (invocations env)
      <= api_calls env' - api_calls env
      /\ (api_calls env <= max_api_calls env -> api_calls env' <= max_api_calls env)).

(** ** Reviews and routing *)

(** What a review stage lets through: the artifact it looks at is there and
    carries no skip or error mark.  [security_review] writes nothing when it
    finds no valid code, so an approval already in the state stands. *)
Definition passes (n : Node) (state : WorkflowState) : bool :=
  match n with
  | n_product_owner_review => truthy (get state "user_stories")
  | n_design_review => truthy (get state "design_documents")
  | n_code_review => negb (invalid_code (get state "generated_code"))
  | n_security_review =>
      negb (invalid_code (get state "generated_code"))
      || bool_decide (get state "security_review_outcome" = Some "Approved")
  | n_test_cases_review => negb (invalid_tests (get state "test_cases"))
  | n_qa_testing =>
      truthy (get state "generated_code")
      && negb (invalid_tests (get state "test_cases"))
  | _ => false
  end.

(** A review stage followed by its decision function. *)
Definition review_then_route (g : gate) (state : WorkflowState) (env : Env) : Prop :=
  exists result : WorkflowState,
    node_function (review g) state env = (Returned result, env)
    /\ (get result (outcome_key g) = Some (success_value g)
        <-> passes (review g) state = true)
    /\ destination_of (review g) (merge state result)
       = Goto (if passes (review g) state || (25 <=? counter state)
               then success_branch g else remediation g).

(** The row of the routing table for a review stage. *)
Definition gate_of (n : Node) : option gate :=
  List.find (fun g => bool_decide (review g = n)) gates.

(** ** What the stages of a run find *)


(** What a stage finds when a run invokes it.  A remediation stage finds the
    artifact its review turned down; the stages after [code_review] find
    valid code, and [qa_testing] valid test cases as well, unless the loop
    guard is open; the fixes after the security review and after QA are not
    invoked at all. *)
Definition expects (n : Node) (state : WorkflowState) : Prop :=
  match n with
  | n_revise_user_stories => truthy (get state "user_stories") = false
  | n_fix_code_after_code_review => invalid_code (get state "generated_code") = true
  | n_security_review | n_write_test_cases | n_test_cases_review =>
      25 <= counter state \/ invalid_code (get state "generated_code") = false
  | n_fix_test_cases_after_review =>
      invalid_code (get state "generated_code") = false
      /\ invalid_tests (get state "test_cases") = true
  | n_qa_testing =>
      25 <= counter state
      \/ (invalid_code (get state "generated_code") = false
          /\ invalid_tests (get state "test_cases") = false)
  | n_fix_code_after_security | n_fix_code_after_qa_feedback => False
  | _ => True
  end.

(** ** The use of the generation service *)

(** The states in which a stage asks [get_llm] for a client. *)
Definition consults (n : Node) (state : WorkflowState) : bool :=
  match n with
  | n_create_user_stories => truthy (get state "user_requirements")
  | n_revise_user_stories =>
      truthy (get state "user_stories") && truthy (get state "po_review_feedback")
  | n_create_design => truthy (get state "user_stories")
  | n_generate_code =>
      truthy (get state "design_documents") || truthy (get state "user_stories")
  | n_fix_code_after_code_review =>
      truthy (get state "generated_code") && truthy (get state "code_review_feedback")
  | n_fix_code_after_security =>
      truthy (get state "generated_code")
      && truthy (get state "security_review_feedback")
  | n_write_test_cases => negb (invalid_code (get state "generated_code"))
  | n_fix_test_cases_after_review =>
      truthy (get state "test_cases") && truthy (get state "test_case_review_feedback")
  | n_fix_code_after_qa_feedback =>
      truthy (get state "generated_code") && truthy (get state "qa_test_feedback")
  | n_monitoring_and_feedback => negb (invalid_code (get state "generated_code"))
  | _ => false
  end.

(** What a producer stage leaves in its artifact when it does not get as far
    as asking for a client: nothing, or a sentence that says why. *)
Definition when_blocked (n : Node) : option (string * option string) :=
  match n with
  | n_create_user_stories => Some ("user_stories", None)
  | n_create_design => Some ("design_documents", None)
  | n_generate_code => Some ("generated_code", None)
  | n_write_test_cases =>
      Some ("test_cases", Some "Test case generation skipped due to missing code.")
  | n_monitoring_and_feedback =>
      Some ("monitoring_feedback", Some "Monitoring skipped due to missing code.")
  | _ => None
  end.

(** ** Remediation *)

(** The artifact a remediation stage repairs, and the placeholder it writes
    when it finds none. *)
Definition placeholder (n : Node) : option (string * string) :=
  match n with
  | n_revise_user_stories => Some ("user_stories", "Revised user stories (placeholder)")
  | n_fix_code_after_code_review => Some ("generated_code", "# Fixed code (placeholder)")
  | n_fix_code_after_security =>
      Some ("generated_code", "# Security-fixed code (placeholder)")
  | n_fix_test_cases_after_review =>
      Some ("test_cases", "Fixed test cases (placeholder)")
  | n_fix_code_after_qa_feedback => Some ("generated_code", "# QA-fixed code (placeholder)")
  | _ => None
  end.

(** The review a remediation stage hands back to. *)
Definition reviewed_by (n : Node) : Node :=
  match n with
  | n_revise_user_stories => n_product_owner_review
  | n_fix_code_after_code_review => n_code_review
  | n_fix_code_after_security => n_security_review
  | n_fix_test_cases_after_review => n_test_cases_review
  | n_fix_code_after_qa_feedback => n_qa_testing
  | other => other
  end.

(** The generation call a stage would make in [env] cannot give a result:
    [get_llm] hands out no client, or the call raises. *)
Definition generation_fails (env : Env) (provider : option string) : Prop :=
  unavailable env provider = true
  \/ exists e : string, service env (invocations env) = Fails e.

(** A state whose code is an error note that [code_review] has rejected. *)
Definition state_with_rejected_code : WorkflowState :=
  set (set fresh_state "generated_code" (Some "# Error generating code: timeout"))
    "code_review_feedback" (Some "No valid code provided for review.").

(** ** The providers *)

(** The flags of the module tell the truth: a provider marked available has
    a client in the table. *)
Definition consistent (module : Providers) : Prop :=
  (groq_available module = true -> "groq" ∈ clients module)
  /\ (google_available module = true -> "google" ∈ clients module).

(** * Properties *)

(** ** The string functions on small inputs *)

Example strip_both_ends :
  PyStr.strip ("  a b " ++ PyStr.nl) = "a b" /\ PyStr.strip "   " = "".
Proof. split; reflexivity. Qed.

Example removeprefix_once :
  PyStr.removeprefix "```python x" "```python" = " x"
  /\ PyStr.removeprefix "x ```python" "```python" = "x ```python".
Proof. split; reflexivity. Qed.

Example removesuffix_once :
  PyStr.removesuffix "x``````" "```" = "x```"
  /\ PyStr.removesuffix "```x" "```" = "```x"
  /\ PyStr.removesuffix "abc" "" = "abc".
Proof. repeat split; reflexivity. Qed.

Example unfence_code :
  unfence ("```python" ++ PyStr.nl ++ "print(1)" ++ PyStr.nl ++ "```") = "print(1)".
Proof. reflexivity. Qed.

(** ** Reading the state after an assignment *)

Section Lookup.
Context (state : WorkflowState) (key : string) (value : option string).

Lemma fields_set_eq : fields (set state key value) !! key = Some value.
Proof. unfold set; simpl. apply lookup_insert_eq. Qed.

Lemma fields_set_ne (other : string) :
  key ≠ other -> fields (set state key value) !! other = fields state !! other.
Proof. intros Hne. unfold set; simpl. by apply lookup_insert_ne. Qed.

Lemma get_set_eq : get (set state key value) key = value.
Proof. unfold get. by rewrite fields_set_eq. Qed.

Lemma get_set_ne (other : string) :
  key ≠ other -> get (set state key value) other = get state other.
Proof. intros Hne. unfold get. by rewrite fields_set_ne. Qed.

Lemma get_or_empty_set_eq : get_or_empty (set state key value) key = value.
Proof. unfold get_or_empty. by rewrite fields_set_eq. Qed.

Lemma get_or_empty_set_ne (other : string) :
  key ≠ other -> get_or_empty (set state key value) other = get_or_empty state other.
Proof. intros Hne. unfold get_or_empty. by rewrite fields_set_ne. Qed.

Lemma step_counter_set : step_counter (set state key value) = step_counter state.
Proof. reflexivity. Qed.

Lemma counter_set : counter (set state key value) = counter state.
Proof. reflexivity. Qed.
End Lookup.

Lemma step_counter_increment state :
  step_counter (increment_step_counter state) = Some (counter state + 1).
Proof. reflexivity. Qed.

Lemma fields_increment state :
  fields (increment_step_counter state) = fields state.
Proof. reflexivity. Qed.

Lemma get_increment state key :
  get (increment_step_counter state) key = get state key.
Proof. reflexivity. Qed.

Lemma get_or_empty_increment state key :
  get_or_empty (increment_step_counter state) key = get_or_empty state key.
Proof. reflexivity. Qed.

(** [state.get(key, "")] and [state.get(key)] differ only on an absent key,
    where both are false. *)
Lemma truthy_get_or_empty state key :
  truthy (get_or_empty state key) = truthy (get state key).
Proof. unfold get_or_empty, get. by destruct (fields state !! key). Qed.

Lemma truthy_get_or_empty_get state key :
  truthy (get_or_empty state key) = true -> get_or_empty state key = get state key.
Proof.
  unfold get_or_empty, get. destruct (fields state !! key); [done|discriminate].
Qed.

(** Reading off what a computation returned. *)
Lemma returns_with {A : Type} (m : result A * Env) (P : A -> Env -> Prop) :
  match m with
  | (Returned a, env') => P a env'
  | (Raised _, _) => False
  end ->
  exists (a : A) (env' : Env), m = (Returned a, env') /\ P a env'.
Proof. destruct m as [[a|e] env']; [eauto|tauto]. Qed.

Lemma on_returned {A : Type} (m : result A * Env) (P : A -> Env -> Prop)
  (a : A) (env' : Env) :
  m = (Returned a, env') ->
  match m with
  | (Returned b, env'') => P b env''
  | (Raised _, _) => True
  end ->
  P a env'.
Proof. by intros ->. Qed.

(** ** Loop guard and routing of the decision functions *)

(** C1: once [step_counter] exceeds 25, each of the six decision functions
    returns its success-branch stage name, whatever the review outcome field
    holds (Rejected, any other value, or nothing). *)
Theorem loop_guard_forces_success_branch (state : WorkflowState) :
  25 < counter state ->
  decide_after_po_review state = "create_design"
  /\ decide_after_design_review state = "generate_code"
  /\ decide_after_code_review state = "security_review"
  /\ decide_after_security_review state = "write_test_cases"
  /\ decide_after_test_cases_review state = "qa_testing"
  /\ decide_after_qa_testing state = "deployment".
Proof.
  intros Hguard. apply Z.ltb_lt in Hguard.
  unfold decide_after_po_review, decide_after_design_review,
    decide_after_code_review, decide_after_security_review,
    decide_after_test_cases_review, decide_after_qa_testing.
  rewrite Hguard. repeat split.
Qed.

Lemma loop_guard_at_26_rejected :
  get rejected_at_26 "po_review_outcome" = Some "Rejected"
  /\ get rejected_at_26 "qa_test_outcome" = Some "Rejected"
  /\ decide_after_po_review rejected_at_26 = "create_design"
  /\ decide_after_design_review rejected_at_26 = "generate_code"
  /\ decide_after_code_review rejected_at_26 = "security_review"
  /\ decide_after_security_review rejected_at_26 = "write_test_cases"
  /\ decide_after_test_cases_review rejected_at_26 = "qa_testing"
  /\ decide_after_qa_testing rejected_at_26 = "deployment".
Proof.
  split; [reflexivity|]. split; [reflexivity|].
  apply (loop_guard_forces_success_branch rejected_at_26). reflexivity.
Defined.

Lemma gates_cases (P : gate -> Prop) :
  (forall g, In g gates -> P g) <-> Forall P gates.
Proof. symmetry. apply List.Forall_forall. Qed.

(** C5: while [step_counter] does not exceed 25, each decision function names
    the success-branch stage exactly when the outcome equals the success value
    of its gate and names the remediation stage otherwise, with the mapping
    po/design/code/security/test_case/qa of the table [gates]; the graph routes
    the review stage accordingly, and the fixed edge that leaves each
    remediation stage leads back to the review stage of the same gate. *)
Theorem decisions_follow_outcome (state : WorkflowState) (g : gate) :
  counter state <= 25 ->
  In g gates ->
  (get state (outcome_key g) = Some (success_value g) ->
     decision g state = node_name (success_branch g)
     /\ destination_of (review g) state = Goto (success_branch g))
  /\ (get state (outcome_key g) <> Some (success_value g) ->
     decision g state = node_name (remediation g)
     /\ destination_of (review g) state = Goto (remediation g))
  /\ (decision g state = node_name (success_branch g) ->
     get state (outcome_key g) = Some (success_value g))
  /\ (forall after : WorkflowState,
     destination_of (remediation g) after = Goto (review g)).
Proof.
  intros Hle Hin. apply Z.ltb_ge in Hle.
  revert g Hin. apply gates_cases. unfold gates.
  repeat (apply List.Forall_cons;
    [ cbn [review decision outcome_key success_value success_branch remediation];
      unfold destination_of; cbn [edges];
      unfold decide_after_po_review, decide_after_design_review,
        decide_after_code_review, decide_after_security_review,
        decide_after_test_cases_review, decide_after_qa_testing;
      rewrite Hle; case_bool_decide;
      (split; [intros ?; first [split; reflexivity | done] | ]);
      (split; [intros ?; first [split; reflexivity | done] | ]);
      (split; [intros ?; first [assumption | discriminate] | intros ?; reflexivity])
    | ]).
  apply List.Forall_nil.
Qed.

Lemma decisions_follow_outcome_at_3 :
  counter (set (initial_state "Build a login page with SSO" None)
             "code_review_outcome" (Some "Rejected")) <= 25
  /\ decide_after_code_review
       (set (initial_state "Build a login page with SSO" None)
          "code_review_outcome" (Some "Rejected"))
     = "fix_code_after_code_review"
  /\ destination_of n_fix_code_after_code_review
       (initial_state "Build a login page with SSO" None)
     = Goto n_code_review.
Proof.
  pose (state := set (initial_state "Build a login page with SSO" None)
                   "code_review_outcome" (Some "Rejected")).
  pose (g := mkGate n_code_review decide_after_code_review
               "code_review_outcome" "code_review_feedback" "Approved"
               n_security_review n_fix_code_after_code_review).
  assert (Hle : counter state <= 25) by (vm_compute; discriminate).
  assert (Hin : In g gates) by (right; right; left; reflexivity).
  destruct (decisions_follow_outcome state g Hle Hin) as (_ & Hrej & _ & Hback).
  split; [exact Hle|]. split.
  - apply Hrej. vm_compute. discriminate.
  - apply Hback.
Defined.

(** ** Single nodes: deployment and the fix after QA *)

(** C8: [deployment] always returns, and it sets [deployment_status] to the
    "skipped" status string exactly when [generated_code] is missing, or
    [qa_test_outcome] is missing, ["Failed"] or ["Skipped"]; in every other
    state it sets the status that starts with "Deployed".  Missing is read as
    absent, null or empty. *)
Theorem deployment_status_rule (state : WorkflowState) (env : Env) :
  exists result : WorkflowState,
    deployment state env = (Returned result, env)
    /\ let code := get state "generated_code" in
       let qa_outcome := get state "qa_test_outcome" in
       let status := get result "deployment_status" in
       let held_back :=
         missing code \/ missing qa_outcome
         \/ qa_outcome = Some "Failed" \/ qa_outcome = Some "Skipped" in
       (held_back <-> status = Some skipped_status)
       /\ (~ held_back <-> status = Some deployed_status)
       /\ (~ held_back -> starts status "Deployed" = true)
       /\ (held_back -> starts status "Deployment skipped" = true).
Proof.
  unfold deployment, ret. eexists. split; [reflexivity|].
  cbv zeta. rewrite get_set_eq, !get_or_empty_increment.
  set (held_back := _ \/ _).
  match goal with |- context [if ?c then _ else _] => set (test := c) end.
  assert (Htest : test = true <-> held_back).
  { subst test held_back. unfold missing, get_or_empty, get.
    destruct (fields state !! "generated_code") as [[[|a code]|]|];
      destruct (fields state !! "qa_test_outcome") as [[[|b outcome]|]|];
      cbn [default truthy negb orb];
      repeat case_bool_decide; intuition (discriminate || congruence). }
  destruct test.
  - assert held_back by (by apply Htest).
    repeat split; intros; try done.
  - assert (~ held_back) by (intros ?%Htest; done).
    repeat split; intros; try done.
Qed.

(** C6, as stated, fails where there is no code: with [qa_test_feedback] and
    [generated_code] both [None], [fix_code_after_qa_feedback] writes its
    placeholder into [generated_code] and returns before the assignment of
    [qa_test_outcome]. *)
Lemma fix_after_qa_without_code :
  get fresh_state "qa_test_feedback" = None
  /\ exists result : WorkflowState,
       fix_code_after_qa_feedback fresh_state (answering "print(1)")
       = (Returned result, answering "print(1)")
       /\ get result "generated_code" = Some "# QA-fixed code (placeholder)"
       /\ get result "generated_code" <> get fresh_state "generated_code"
       /\ get result "qa_test_outcome" <> Some "Passed".
Proof.
  split; [reflexivity|]. eexists. split; [reflexivity|].
  split; [reflexivity|]. split; vm_compute; discriminate.
Qed.

(** C6 (amended): in every state whose [qa_test_feedback] is [None] and whose
    [generated_code] is a non-empty string, [fix_code_after_qa_feedback]
    returns without calling the generation service, leaves [generated_code]
    as it was and sets [qa_test_outcome] to ["Passed"]. *)
Theorem fix_after_qa_without_feedback (state : WorkflowState) (env : Env) :
  get state "qa_test_feedback" = None ->
  truthy (get state "generated_code") = true ->
  exists result : WorkflowState,
    fix_code_after_qa_feedback state env = (Returned result, env)
    /\ fields result !! "generated_code" = fields state !! "generated_code"
    /\ get result "generated_code" = get state "generated_code"
    /\ get result "qa_test_outcome" = Some "Passed".
Proof.
  intros Hfeedback Hcode.
  assert (Hfb : truthy (get_or_empty state "qa_test_feedback") = false)
    by (by rewrite truthy_get_or_empty, Hfeedback).
  assert (Hc : truthy (get_or_empty state "generated_code") = true)
    by (by rewrite truthy_get_or_empty).
  unfold fix_code_after_qa_feedback.
  rewrite !get_or_empty_increment, Hc, Hfb. cbn [negb]. unfold ret.
  eexists. split; [reflexivity|].
  rewrite get_set_eq, get_set_ne, get_set_eq by done.
  rewrite fields_set_ne, fields_set_eq by done.
  rewrite (truthy_get_or_empty_get _ _ Hc).
  repeat split. unfold get in *.
  destruct (fields state !! "generated_code") as [v|]; [done|discriminate].
Qed.

Lemma fix_after_qa_without_feedback_on_code :
  get state_with_code "qa_test_feedback" = None
  /\ truthy (get state_with_code "generated_code") = true
  /\ exists result : WorkflowState,
       fix_code_after_qa_feedback state_with_code (answering "print(2)")
       = (Returned result, answering "print(2)")
       /\ get result "generated_code" = Some "print(1)"
       /\ get result "qa_test_outcome" = Some "Passed".
Proof.
  split; [reflexivity|]. split; [reflexivity|].
  destruct (fix_after_qa_without_feedback state_with_code (answering "print(2)"))
    as (result & Hrun & _ & Hcode & Hpassed); [reflexivity|reflexivity|].
  exists result. split; [exact Hrun|]. split; [|exact Hpassed].
  rewrite Hcode. reflexivity.
Defined.

(** ** Every node returns, and counts its call *)

Ltac unfold_node :=
  unfold node_function, gather_requirements, create_user_stories,
    product_owner_review, revise_user_stories, create_design, design_review,
    generate_code, code_review, fix_code_after_code_review, security_review,
    fix_code_after_security, write_test_cases, test_cases_review,
    fix_test_cases_after_review, qa_testing, fix_code_after_qa_feedback,
    deployment, monitoring_and_feedback, maintenance_and_updates.

Ltac unfold_monad :=
  unfold bind, try_except, ret, get_llm, invoke, text_area.

(** All the ways through a node, one goal for each. *)
Ltac node_paths := unfold_node; unfold_monad; repeat case_match; simplify_eq.

Lemma node_returns_and_counts (n : Node) (state : WorkflowState) (env : Env) :
  exists (result : WorkflowState) (env' : Env),
    node_function n state env = (Returned result, env')
    /\ step_counter result = Some (counter_after n state).
Proof.
  destruct n; node_paths; eexists _, _; (split; [reflexivity|]); reflexivity.
Qed.

(** C4: every stage function returns with [step_counter] one above what it
    found (an absent counter counts as 0), so the counter never decreases
    across a stage call, except in [maintenance_and_updates], the terminal
    stage, which increments like the others and then writes -1. *)
Theorem step_counter_discipline (n : Node) (state : WorkflowState) (env : Env) :
  exists (result : WorkflowState) (env' : Env),
    node_function n state env = (Returned result, env')
    /\ (n <> n_maintenance_and_updates ->
          step_counter result = Some (counter state + 1)
          /\ counter state <= counter result)
    /\ (n = n_maintenance_and_updates ->
          step_counter result = Some (-1)
          /\ result = set_step_counter
                        (set_log (increment_step_counter state)
                           (default [] (maintenance_updates_log state) ++ [log_entry]))
                        (-1)).
Proof.
  destruct (node_returns_and_counts n state env) as (result & env' & Hrun & Hcount).
  exists result, env'. split; [exact Hrun|]. split.
  - intros Hn. unfold counter_after, terminal in Hcount.
    rewrite bool_decide_eq_false_2 in Hcount by exact Hn.
    split; [exact Hcount|]. unfold counter at 2. rewrite Hcount. simpl. lia.
  - intros ->. split; [exact Hcount|].
    unfold node_function, maintenance_and_updates, ret in Hrun.
    by simplify_eq.
Qed.

(** ** Review stages: outcome and feedback *)

(** C3, as stated, fails for [product_owner_review]: on a state with user
    stories it sets the outcome to ["Approved"] and the feedback to a
    sentence, not to null. *)
Lemma approved_with_feedback :
  In n_product_owner_review (map review gates)
  /\ exists result : WorkflowState,
       product_owner_review state_with_stories (answering "ok")
       = (Returned result, answering "ok")
       /\ get result "po_review_outcome" = Some "Approved"
       /\ get result "po_review_feedback"
          = Some "User stories meet requirements and are well-structured."
       /\ get result "po_review_feedback" <> None.
Proof.
  split; [left; reflexivity|]. eexists. split; [reflexivity|].
  split; [reflexivity|]. split; [reflexivity|]. vm_compute. discriminate.
Qed.

(** C3 (amended): for every input state and each of the six review stages,
    the stage returns, and when the state it returns holds the success value
    in the outcome field of the stage, then either the feedback field holds
    what the stage stores on success -- null for [security_review] and
    [qa_testing], a fixed approval sentence for [product_owner_review],
    [design_review], [code_review] and [test_cases_review] -- or the stage
    is [security_review] on missing or placeholder code, which writes neither
    field. *)
Theorem success_feedback (g : gate) (state : WorkflowState) (env : Env) :
  In g gates ->
  exists result : WorkflowState,
    node_function (review g) state env = (Returned result, env)
    /\ (get result (outcome_key g) = Some (success_value g) ->
          fields result !! feedback_key g = Some (approval_feedback (review g))
          \/ (review g = n_security_review
              /\ invalid_code (get_or_empty state "generated_code") = true
              /\ fields result = fields state)).
Proof.
  revert g. apply gates_cases. unfold gates.
  repeat (apply List.Forall_cons;
    [ cbn [review outcome_key feedback_key success_value approval_feedback];
      node_paths; eexists; (split; [reflexivity|]); intros Hout;
      first [ by (rewrite get_set_ne, get_set_eq in Hout by done)
            | left; apply fields_set_eq
            | right; by repeat split ]
    | ]).
  apply List.Forall_nil.
Qed.

Lemma success_feedback_qa :
  In (mkGate n_qa_testing decide_after_qa_testing
        "qa_test_outcome" "qa_test_feedback" "Passed"
        n_deployment n_fix_code_after_qa_feedback) gates
  /\ exists result : WorkflowState,
       qa_testing (set state_with_code "test_cases" (Some "assert f() == 1"))
         (answering "ok")
       = (Returned result, answering "ok")
       /\ get result "qa_test_outcome" = Some "Passed"
       /\ fields result !! "qa_test_feedback" = Some None.
Proof.
  pose (g := mkGate n_qa_testing decide_after_qa_testing
               "qa_test_outcome" "qa_test_feedback" "Passed"
               n_deployment n_fix_code_after_qa_feedback).
  assert (Hin : In g gates) by (do 5 right; left; reflexivity).
  split; [exact Hin|].
  destruct (success_feedback g
              (set state_with_code "test_cases" (Some "assert f() == 1"))
              (answering "ok") Hin) as (result & Hrun & Hsuccess).
  exists result. split; [exact Hrun|].
  assert (Hpassed : get result "qa_test_outcome" = Some "Passed").
  { apply (on_returned _ (fun r _ => get r "qa_test_outcome" = Some "Passed")
             _ _ Hrun).
    vm_compute. reflexivity. }
  split; [exact Hpassed|].
  destruct (Hsuccess Hpassed) as [Hnull|(Hsec & _)]; [exact Hnull|discriminate].
Defined.

(** ** Failure of the generation call *)

Lemma kept_artifact state key :
  truthy (get_or_empty state key) = true ->
  Some (get_or_empty state key) = fields state !! key
  /\ truthy (get state key) = true.
Proof.
  unfold get_or_empty, get. destruct (fields state !! key); [done|discriminate].
Qed.

Ltac kept_truthy :=
  match goal with
  | H : negb (truthy (get_or_empty _ _)) || _ = false |- _ =>
      apply orb_false_elim in H as [H _]; apply negb_false_iff in H
  | H : negb (truthy (get_or_empty _ _)) = false |- _ =>
      apply negb_false_iff in H
  end.

(** C7, as stated, fails for the remediation stages: when the generation call
    of [revise_user_stories] raises, the stage stores the user stories it was
    given, which carry no mark of a placeholder. *)
Lemma failed_revision_keeps_stories :
  on_failure n_revise_user_stories = Some (Keeps "user_stories")
  /\ service (failing "timeout") (invocations (failing "timeout")) = Fails "timeout"
  /\ exists (result : WorkflowState) (env' : Env),
       revise_user_stories state_with_rejected_stories (failing "timeout")
       = (Returned result, env')
       /\ invocations env' = S (invocations (failing "timeout"))
       /\ get result "user_stories" = Some "As a user, I want to log in."
       /\ get result "user_stories" = get state_with_rejected_stories "user_stories"
       /\ visibly_marked (get result "user_stories") = false.
Proof.
  split; [reflexivity|]. split; [reflexivity|].
  apply returns_with. vm_compute. repeat split.
Qed.

(** C7 (amended): every stage function returns normally, whatever the
    generation service does, with [step_counter] incremented (or -1 after the
    terminal stage).  When a stage made its generation call and the call
    raised, a producer stage ([create_user_stories], [create_design],
    [generate_code], [write_test_cases], [monitoring_and_feedback]) has
    stored in its artifact a sentence that starts with its error prefix and
    ends with the message of the exception; a remediation stage
    ([revise_user_stories], [fix_code_after_code_review],
    [fix_code_after_security], [fix_test_cases_after_review],
    [fix_code_after_qa_feedback]) has kept the non-empty artifact it was
    given.  No other stage calls the service. *)
Theorem generation_failure_policy (n : Node) (state : WorkflowState) (env : Env) :
  exists (result : WorkflowState) (env' : Env),
    node_function n state env = (Returned result, env')
    /\ step_counter result = Some (counter_after n state)
    /\ forall msg : string,
         invocations env' = S (invocations env) ->
         service env (invocations env) = Fails msg ->
         match on_failure n with
         | Some (Marks key prefix) => get result key = Some (prefix ++ msg)
         | Some (Keeps key) =>
             fields result !! key = fields state !! key
             /\ truthy (get state key) = true
         | None => False
         end.
Proof.
  destruct n; cbn [on_failure]; node_paths; eexists _, _;
    (split; [reflexivity|]); (split; [reflexivity|]);
    intros msg Hcall Hfail;
    cbn [service invocations with_api_calls with_invocations with_input] in *;
    try lia; try congruence.
  all: try (rewrite get_set_eq; congruence).
  all: rewrite ?get_or_empty_increment in *.
  all: try (kept_truthy;
            match goal with
            | H : truthy (get_or_empty _ _) = true |- _ =>
                destruct (kept_artifact _ _ H) as [Hkept ?];
                split; [|assumption];
                rewrite ?fields_set_ne by done; rewrite fields_set_eq;
                exact Hkept
            end).
Qed.

Lemma failed_code_generation_is_marked :
  exists (result : WorkflowState) (env' : Env),
    generate_code state_with_design (failing "timeout") = (Returned result, env')
    /\ step_counter result = Some 1
    /\ get result "generated_code" = Some "# Error generating code: timeout".
Proof.
  destruct (generation_failure_policy n_generate_code state_with_design
              (failing "timeout")) as (result & env' & Hrun & Hcount & Hpolicy).
  exists result, env'. split; [exact Hrun|]. split; [exact Hcount|].
  apply (Hpolicy "timeout"); [|reflexivity].
  apply (on_returned _
           (fun _ e => invocations e = S (invocations (failing "timeout")))
           _ _ Hrun).
  vm_compute. reflexivity.
Defined.

(** ** The state after a node, as the graph sees it *)

Lemma step_counter_merge state patch n :
  step_counter patch = Some n -> step_counter (merge state patch) = Some n.
Proof. unfold merge; simpl. by intros ->. Qed.

Lemma counter_merge state patch n :
  step_counter patch = Some n -> counter (merge state patch) = n.
Proof. intros H. unfold counter. by rewrite (step_counter_merge _ _ _ H). Qed.

Lemma fields_merge_written state patch key value :
  fields patch !! key = Some value ->
  fields (merge state patch) !! key = Some value.
Proof. unfold merge; simpl. apply lookup_union_Some_l. Qed.

Lemma fields_merge_untouched state patch key :
  fields patch !! key = fields state !! key ->
  fields (merge state patch) !! key = fields state !! key.
Proof.
  unfold merge; simpl. intros H. rewrite lookup_union, H.
  by destruct (fields state !! key).
Qed.

Lemma get_merge_written state patch key value :
  fields patch !! key = Some value -> get (merge state patch) key = value.
Proof. intros H. unfold get. by rewrite (fields_merge_written _ _ _ _ H). Qed.

Lemma get_merge_untouched state patch key :
  fields patch !! key = fields state !! key ->
  get (merge state patch) key = get state key.
Proof. intros H. unfold get. by rewrite (fields_merge_untouched _ _ _ H). Qed.

(** ** Runs: the loop guard bounds every run *)

Lemma reaches_terminal_weaken limit n state env bound bound' :
  (bound <= bound')%nat ->
  reaches_terminal limit n state env bound ->
  reaches_terminal limit n state env bound'.
Proof.
  intros Hle (final & trace & env' & Hrun & Hlen & Hlast).
  exists final, trace, env'. repeat split; [done|lia|done].
Qed.

Lemma reaches_terminal_step limit n state env result env' next bound :
  node_function n state env = (Returned result, env') ->
  destination_of n (merge state result) = Goto next ->
  reaches_terminal limit next (merge state result) env' bound ->
  reaches_terminal (S limit) n state env (S bound).
Proof.
  intros Hnode Hdest (final & trace & env'' & Hrun & Hlen & Hlast).
  exists final, (n :: trace), env''. cbn [run_from].
  rewrite Hnode, Hdest, Hrun. repeat split; [simpl; lia|].
  destruct trace; [discriminate|]. by rewrite last_cons, Hlast.
Qed.

Lemma reaches_terminal_stop limit state env result env' :
  node_function n_maintenance_and_updates state env = (Returned result, env') ->
  reaches_terminal (S limit) n_maintenance_and_updates state env 1.
Proof.
  intros Hnode. exists (merge state result), [n_maintenance_and_updates], env'.
  cbn [run_from]. rewrite Hnode. repeat split. simpl. lia.
Qed.

Ltac decision_cases :=
  unfold destination_of; cbn [edges];
  unfold decide_after_po_review, decide_after_design_review,
    decide_after_code_review, decide_after_security_review,
    decide_after_test_cases_review, decide_after_qa_testing;
  repeat match goal with
         | |- context [if ?c then _ else _] => destruct c eqn:?
         end.

Lemma destination_forced n state :
  25 < counter state ->
  destination_of n state
  = match forced_next n with Some next => Goto next | None => Stop end.
Proof.
  intros Hguard%Z.ltb_lt. destruct n; cbn [forced_next];
    unfold destination_of; cbn [edges];
    unfold decide_after_po_review, decide_after_design_review,
      decide_after_code_review, decide_after_security_review,
      decide_after_test_cases_review, decide_after_qa_testing;
    rewrite ?Hguard; reflexivity.
Qed.

(** Where a run can go from a stage, whatever the state. *)
Lemma destination_known n state :
  match destination_of n state with
  | Goto next => n <> n_maintenance_and_updates /\ (late n = true -> late next = true)
  | Stop => n = n_maintenance_and_updates
  | Unknown_target _ => False
  end.
Proof. destruct n; decision_cases; cbn; done. Qed.

Lemma remaining_forced n next :
  forced_next n = Some next -> remaining n = S (remaining next).
Proof. destruct n; intros [= <-]; reflexivity. Qed.

Lemma remaining_late n : late n = true -> (remaining n <= 11)%nat.
Proof. destruct n; intros; try discriminate; simpl; lia. Qed.

Lemma node_returns n state env :
  exists result env',
    node_function n state env = (Returned result, env')
    /\ (n <> n_maintenance_and_updates ->
        forall patch_base, counter (merge patch_base result) = counter state + 1).
Proof.
  destruct (node_returns_and_counts n state env) as (result & env' & Hrun & Hcount).
  exists result, env'. split; [done|]. intros Hn base.
  apply counter_merge. rewrite Hcount. unfold counter_after, terminal.
  by rewrite bool_decide_eq_false_2.
Qed.

(** Past the loop guard, the run goes down the success branches. *)
Lemma forced_run k : forall n state env limit,
  (remaining n <= k)%nat ->
  25 <= counter state ->
  (remaining n <= limit)%nat ->
  reaches_terminal limit n state env (remaining n).
Proof.
  induction k as [|k IH]; intros n state env limit Hk Hguard Hlimit.
  { destruct n; simpl in Hk; lia. }
  destruct limit as [|limit]; [destruct n; simpl in Hlimit; lia|].
  destruct (node_returns n state env) as (result & env' & Hnode & Hcount).
  destruct (decide (n = n_maintenance_and_updates)) as [->|Hn].
  { eapply reaches_terminal_stop; eauto. }
  specialize (Hcount Hn state).
  pose proof (destination_forced n (merge state result)) as Hdest.
  destruct (forced_next n) as [next|] eqn:Hnext; [|by destruct n].
  apply remaining_forced in Hnext. rewrite Hnext in *.
  eapply reaches_terminal_step; [exact Hnode|apply Hdest; lia|].
  apply IH; lia.
Qed.

(** From [create_design] on, [m] stage invocations before the loop guard
    opens and at most eleven after. *)
Lemma late_run m : forall n state env limit,
  late n = true ->
  25 - counter state <= Z.of_nat m ->
  (m + 11 <= limit)%nat ->
  reaches_terminal limit n state env (m + 11).
Proof.
  induction m as [|m IH]; intros n state env limit Hlate Hcounter Hlimit.
  { eapply reaches_terminal_weaken; [apply (remaining_late n Hlate)|].
    pose proof (remaining_late n Hlate).
    apply (forced_run (remaining n)); lia. }
  destruct (Z_le_gt_dec 25 (counter state)) as [Hguard|Hopen].
  { pose proof (remaining_late n Hlate).
    eapply reaches_terminal_weaken; [|apply (forced_run (remaining n)); lia]. lia. }
  destruct limit as [|limit]; [lia|].
  destruct (node_returns n state env) as (result & env' & Hnode & Hcount).
  destruct (decide (n = n_maintenance_and_updates)) as [->|Hn].
  { eapply reaches_terminal_weaken; [|eapply reaches_terminal_stop; eauto]. lia. }
  specialize (Hcount Hn state).
  pose proof (destination_known n (merge state result)) as Hdest.
  destruct (destination_of n (merge state result)) as [next| |name] eqn:Hgo;
    [|done|done].
  destruct Hdest as [_ Hnext].
  replace (S m + 11)%nat with (S (m + 11)) by lia.
  eapply reaches_terminal_step; [exact Hnode|exact Hgo|].
  apply IH; [by apply Hnext|lia|lia].
Qed.

Lemma po_review_returns state env :
  exists result,
    product_owner_review state env = (Returned result, env)
    /\ (forall base, counter (merge base result) = counter state + 1)
    /\ if truthy (get state "user_stories")
       then fields result !! "po_review_outcome" = Some (Some "Approved")
       else fields result !! "po_review_outcome" = Some (Some "Rejected")
            /\ fields result !! "user_stories" = fields state !! "user_stories".
Proof.
  unfold product_owner_review, ret.
  rewrite get_or_empty_increment, truthy_get_or_empty.
  destruct (truthy (get state "user_stories")); cbn [negb];
    eexists; (split; [reflexivity|]); (split; [intros; by apply counter_merge|]).
  - by rewrite fields_set_ne, fields_set_eq.
  - split.
    + by rewrite fields_set_ne, fields_set_eq.
    + by rewrite !fields_set_ne.
Qed.

Lemma revise_without_stories state env :
  truthy (get state "user_stories") = false ->
  exists result,
    revise_user_stories state env = (Returned result, env)
    /\ (forall base, counter (merge base result) = counter state + 1)
    /\ fields result !! "user_stories"
       = Some (Some "Revised user stories (placeholder)").
Proof.
  intros Hnone. unfold revise_user_stories, ret.
  rewrite !get_or_empty_increment, truthy_get_or_empty, Hnone. cbn [negb orb].
  eexists. split; [reflexivity|]. split; [intros; by apply counter_merge|].
  by rewrite fields_set_eq.
Qed.

Lemma po_review_destination state :
  counter state <= 25 ->
  destination_of n_product_owner_review state
  = if bool_decide (get state "po_review_outcome" = Some "Approved")
    then Goto n_create_design else Goto n_revise_user_stories.
Proof.
  intros Hopen%Z.ltb_ge. unfold destination_of; cbn [edges].
  unfold decide_after_po_review. rewrite Hopen. by case_bool_decide.
Qed.

(** With the counter at 0, three to five stages lead to [create_design],
    and [late_run] bounds the rest. *)
Lemma run_within_loop_guard (state : WorkflowState) (env : Env) (limit : nat) :
  counter state = 0 ->
  (36 <= limit)%nat ->
  exists (final : WorkflowState) (trace : list Node) (env' : Env),
    run limit state env = (Finished final trace, env')
    /\ (length trace <= 36)%nat
    /\ last trace = Some n_maintenance_and_updates.
Proof.
  intros Hzero Hlimit.
  change (reaches_terminal limit n_gather_requirements state env 36).
  do 3 (destruct limit as [|limit]; [lia|]).
  destruct (node_returns n_gather_requirements state env)
    as (r1 & env1 & Hgather & Hc1).
  specialize (Hc1 ltac:(done) state). set (s1 := merge state r1) in *.
  eapply reaches_terminal_step; [exact Hgather|reflexivity|fold s1].
  destruct (node_returns n_create_user_stories s1 env1)
    as (r2 & env2 & Hstories & Hc2).
  specialize (Hc2 ltac:(done) s1). set (s2 := merge s1 r2) in *.
  eapply reaches_terminal_step; [exact Hstories|reflexivity|fold s2].
  destruct (po_review_returns s2 env2) as (r3 & Hreview & Hc3 & Houtcome).
  specialize (Hc3 s2). set (s3 := merge s2 r3) in *.
  pose proof (po_review_destination s3 ltac:(lia)) as Hdest.
  destruct (truthy (get s2 "user_stories")) eqn:Hgiven.
  - assert (Hout : get s3 "po_review_outcome" = Some "Approved")
      by (by apply get_merge_written).
    rewrite Hout, bool_decide_eq_true_2 in Hdest by done.
    eapply reaches_terminal_step; [exact Hreview|exact Hdest|fold s3].
    apply (late_run 22); [done|lia|lia].
  - destruct Houtcome as [Houtcome Hsame].
    assert (Hout : get s3 "po_review_outcome" = Some "Rejected")
      by (by apply get_merge_written).
    rewrite Hout, bool_decide_eq_false_2 in Hdest by done.
    eapply reaches_terminal_step; [exact Hreview|exact Hdest|fold s3].
    do 2 (destruct limit as [|limit]; [lia|]).
    assert (Hnone : truthy (get s3 "user_stories") = false)
      by (unfold s3; by rewrite (get_merge_untouched _ _ _ Hsame)).
    destruct (revise_without_stories s3 env2 Hnone) as (r4 & Hrevise & Hc4 & Hplace).
    specialize (Hc4 s3). set (s4 := merge s3 r4) in *.
    eapply (reaches_terminal_step _ n_revise_user_stories);
      [exact Hrevise|reflexivity|fold s4].
    destruct (po_review_returns s4 env2) as (r5 & Hagain & Hc5 & Happroved).
    specialize (Hc5 s4). set (s5 := merge s4 r5) in *.
    assert (Hrevised : get s4 "user_stories"
                       = Some "Revised user stories (placeholder)")
      by (by apply get_merge_written).
    rewrite Hrevised in Happroved. cbn [truthy] in Happroved.
    assert (Hout5 : get s5 "po_review_outcome" = Some "Approved")
      by (by apply get_merge_written).
    pose proof (po_review_destination s5 ltac:(lia)) as Hdest5.
    rewrite Hout5, bool_decide_eq_true_2 in Hdest5 by done.
    eapply reaches_terminal_step; [exact Hagain|exact Hdest5|fold s5].
    apply (late_run 20); [done|lia|lia].
Qed.

(** ** Runs without the generation service *)

(** [unavailable] says when [get_llm] hands out no client. *)
Lemma get_llm_unavailable (state : WorkflowState) (env : Env) :
  fst (get_llm state env) = Returned None
  <-> unavailable env (get state "llm_provider") = true.
Proof.
  unfold get_llm, unavailable.
  destruct (enable_quota_protection env && (max_api_calls env <=? api_calls env));
    [done|].
  destruct (get state "llm_provider") as [p|]; [|done].
  destruct (truthy (Some p) && bool_decide (p ∈ llm_clients env)); cbn; split;
    (done || discriminate).
Qed.

Section ServiceFree.
Context (provider : option string).

Lemma service_free_ret {A : Type} (a : A) : service_free provider (ret a).
Proof. intros env Hoff. by exists a, env. Qed.

Lemma service_free_bind {A B : Type} (m : M A) (k : A -> M B) :
  service_free provider m ->
  (forall a, service_free provider (k a)) ->
  service_free provider (bind m k).
Proof.
  intros Hm Hk env Hoff. destruct (Hm env Hoff) as (a & env1 & Hrun & Hsim & Hoff1).
  destruct (Hk a env1 Hoff1) as (b & env2 & Hrun2 & Hsim2 & Hoff2).
  exists b, env2. unfold bind. by rewrite Hrun, Hsim.
Qed.

Lemma service_free_text_area : service_free provider text_area.
Proof. intros env Hoff. eexists _, _. by repeat split. Qed.

Lemma service_free_get_llm {B : Type} (state : WorkflowState)
  (k : option string -> M B) :
  get state "llm_provider" = provider ->
  service_free provider (k None) ->
  service_free provider (bind (get_llm state) k).
Proof.
  intros Hprovider Hk env Hoff.
  assert (exists env1, get_llm state env = (Returned None, env1)
            /\ user_requirements_input env1 = user_requirements_input env
            /\ unavailable env1 provider = true) as (env1 & Hget & Hinput & Hoff1).
  { pose proof Hoff as Hstill.
    unfold get_llm. rewrite Hprovider. unfold unavailable in Hoff.
    destruct (enable_quota_protection env) eqn:Hprotect;
      destruct (max_api_calls env <=? api_calls env) eqn:Hquota;
      cbn [andb orb] in *; [by exists env|..];
      (destruct provider as [p|]; [apply negb_true_iff in Hoff; rewrite Hoff|]);
      eexists; (split; [reflexivity|]); (split; [reflexivity|]);
      try exact Hstill;
      unfold unavailable;
      cbn [enable_quota_protection max_api_calls api_calls llm_clients
           with_api_calls];
      rewrite ?Hoff; cbn [negb]; apply orb_true_r. }
  destruct (Hk env1 Hoff1) as (b & env2 & Hrun & Hsim & Hoff2).
  exists b, env2. unfold bind at 1. rewrite Hget, Hrun.
  rewrite Hinput in Hsim. by repeat split.
Qed.
End ServiceFree.

Ltac service_free_paths :=
  repeat first
    [ apply service_free_ret
    | apply service_free_get_llm; [reflexivity|]
    | apply service_free_bind; [|intros ?]
    | apply service_free_text_area
    | match goal with
      | |- service_free _ (if ?c then _ else _) => destruct c
      | |- service_free _ (let '(_, _) := (if ?c then _ else _) in _) => destruct c
      end ].

Lemma nodes_service_free (n : Node) (state : WorkflowState) :
  service_free (get state "llm_provider") (node_function n state).
Proof. destruct n; unfold_node; service_free_paths. Qed.

(** No node writes the key [llm_provider]. *)
Lemma node_keeps_provider n state env result env' :
  node_function n state env = (Returned result, env') ->
  fields result !! "llm_provider" = fields state !! "llm_provider".
Proof.
  destruct n; node_paths; intros; simplify_eq;
    by rewrite ?fields_set_ne by done.
Qed.

Lemma run_offline limit : forall n state env,
  unavailable env (get state "llm_provider") = true ->
  fst (run_from limit n state env)
  = fst (run_from limit n state (offline (user_requirements_input env))).
Proof.
  induction limit as [|limit IH]; intros n state env Hoff; [reflexivity|].
  destruct (nodes_service_free n state env Hoff)
    as (result & env' & Hnode & Hsim & Hoff').
  cbn [run_from]. rewrite Hnode, Hsim.
  destruct (destination_of n (merge state result)) as [next| |name];
    [|reflexivity|reflexivity].
  assert (Hnext : unavailable env' (get (merge state result) "llm_provider") = true).
  { rewrite get_merge_untouched; [done|]. by eapply node_keeps_provider. }
  specialize (IH next (merge state result) env' Hnext).
  destruct (run_from limit next (merge state result) env') as [[]],
    (run_from limit next (merge state result)
       (offline (user_requirements_input env'))) as [[]];
    simpl in *; congruence.
Qed.

Lemma run_from_more limit : forall n state env final trace env' extra,
  run_from limit n state env = (Finished final trace, env') ->
  run_from (limit + extra) n state env = (Finished final trace, env').
Proof.
  induction limit as [|limit IH]; intros n state env final trace env' extra;
    [discriminate|].
  cbn [run_from Nat.add].
  destruct (node_function n state env) as [[result|e] env1]; [|done].
  destruct (destination_of n (merge state result)) as [next| |name]; [|done|done].
  destruct (run_from limit next (merge state result) env1)
    as [[final1 trace1| |e1] env2] eqn:Hrest; [|done|done].
  intros [= <- <- <-]. by rewrite (IH _ _ _ _ _ _ extra Hrest).
Qed.

Lemma run_offline_computed (a : ascii) (rest : string) (provider input : option string) :
  match fst (run_from 34 n_gather_requirements
               (initial_state (String a rest) provider) (offline input)) with
  | Finished final trace =>
      trace = trace_without_service
      /\ get final "generated_code" = Some (skipped_code ++ notes 10)
      /\ get final "deployment_status" = Some skipped_status
      /\ step_counter final = Some (-1)
  | _ => False
  end
  /\ fst (run_from 30 n_gather_requirements
            (initial_state (String a rest) provider) (offline input))
     = RecursionLimitExceeded.
Proof.
  destruct input as [[|b input]|]; vm_compute; repeat split.
Qed.

(** C9 (amended): when the generation service is unavailable on every call
    (the quota is used up, or there is no client for the provider), the run
    from the initial state with non-empty [user_requirements] reaches
    [maintenance_and_updates], after 34 stage invocations: [code_review]
    rejects the skip marker and [fix_code_after_code_review] appends a note
    to it, ten times, until the loop guard opens.  [generated_code] ends up
    as ["# Code generation skipped."] followed by these ten notes: it starts
    with the marker and is not equal to it.  Under the cap of 30 the run
    does not reach the terminal stage. *)
Theorem run_without_service (user_requirements : string)
  (provider : option string) (env : Env) (limit : nat) :
  user_requirements <> "" ->
  unavailable env provider = true ->
  (34 <= limit)%nat ->
  (exists (final : WorkflowState) (env' : Env),
     run limit (initial_state user_requirements provider) env
     = (Finished final trace_without_service, env')
     /\ length trace_without_service = 34%nat
     /\ last trace_without_service = Some n_maintenance_and_updates
     /\ get final "generated_code" = Some (skipped_code ++ notes 10)
     /\ starts (get final "generated_code") skipped_code = true
     /\ get final "generated_code" <> Some skipped_code)
  /\ fst (run max_steps_allowed (initial_state user_requirements provider) env)
     = RecursionLimitExceeded.
Proof.
  intros Hreq Hoff Hlimit.
  destruct user_requirements as [|a rest]; [done|].
  set (state := initial_state (String a rest) provider).
  assert (Hprovider : unavailable env (get state "llm_provider") = true)
    by (by replace (get state "llm_provider") with provider
          by (vm_compute; reflexivity)).
  destruct (run_offline_computed a rest provider (user_requirements_input env))
    as [Hlong Hshort]. fold state in Hlong, Hshort.
  change (run ?l state env) with (run_from l n_gather_requirements state env).
  split.
  - rewrite <- (run_offline 34 _ _ _ Hprovider) in Hlong.
    destruct (run_from 34 n_gather_requirements state env)
      as [[final trace| |e] env'] eqn:Hrun; simpl in Hlong; [|done|done].
    destruct Hlong as (-> & Hcode & _).
    exists final, env'. split.
    { replace limit with (34 + (limit - 34))%nat by lia.
      by apply run_from_more. }
    split; [reflexivity|]. split; [reflexivity|]. split; [exact Hcode|].
    rewrite Hcode. split; [reflexivity|]. vm_compute. discriminate.
  - unfold max_steps_allowed. by rewrite (run_offline 30 _ _ _ Hprovider).
Qed.

(** C9, as stated, fails: without any client, the run from the initial state
    of the page ends with ten notes after the skip marker in
    [generated_code], and needs more stage invocations than the cap allows. *)
Lemma skipped_code_is_annotated :
  truthy (get state_without_provider "user_requirements") = true
  /\ unavailable without_clients (get state_without_provider "llm_provider") = true
  /\ match fst (run 34 state_without_provider without_clients) with
     | Finished final trace =>
         last trace = Some n_maintenance_and_updates
         /\ get final "generated_code" <> Some "# Code generation skipped."
     | _ => False
     end
  /\ fst (run max_steps_allowed state_without_provider without_clients)
     = RecursionLimitExceeded.
Proof.
  split; [reflexivity|]. split; [reflexivity|].
  split; [|vm_compute; reflexivity].
  vm_compute. split; [reflexivity|]. intros Hsame. discriminate Hsame.
Qed.

Lemma run_without_service_on_page :
  "Build a login page with SSO" <> ""
  /\ unavailable without_clients None = true
  /\ exists (final : WorkflowState) (env' : Env),
       run 34 (initial_state "Build a login page with SSO" None) without_clients
       = (Finished final trace_without_service, env')
       /\ starts (get final "generated_code") skipped_code = true
       /\ get final "generated_code" <> Some skipped_code.
Proof.
  assert (Hreq : "Build a login page with SSO" <> "") by discriminate.
  assert (Hoff : unavailable without_clients None = true) by reflexivity.
  split; [exact Hreq|]. split; [exact Hoff|].
  destruct (run_without_service "Build a login page with SSO" None
              without_clients 34 Hreq Hoff (le_n 34))
    as [(final & env' & Hrun & _ & _ & _ & Hstarts & Hdiffers) _].
  exists final, env'. split; [exact Hrun|]. split; [exact Hstarts|exact Hdiffers].
Defined.

(** ** Runs with a service whose replies pass every review *)

Lemma usable_reply env provider calls k :
  serviceable env provider calls ->
  exists response,
    service env k = Reply response
    /\ truthy (Some (text_of response)) = true
    /\ invalid_tests (Some (text_of response)) = false
    /\ invalid_code (Some (code_of response)) = false.
Proof.
  intros (_ & _ & Husable). specialize (Husable k). unfold usable in Husable.
  destruct (service env k) as [response|]; [|discriminate].
  exists response. apply andb_prop in Husable as [[? ?%negb_true_iff]%andb_prop ?%negb_true_iff].
  done.
Qed.

(** A generation step of a node, when a client and a usable reply are there. *)
Lemma generation_succeeds {A : Type} (state : WorkflowState) (env : Env)
  (calls : Z) (skip : M A) (f : response -> A) (handler : string -> M A) :
  serviceable env (get state "llm_provider") calls ->
  0 < calls ->
  exists (response : response) (env' : Env),
    bind (get_llm state)
      (fun llm =>
         match llm with
         | None => skip
         | Some llm =>
             try_except (bind (invoke llm) (fun response => ret (f response)))
               handler
         end) env
    = (Returned (f response), env')
    /\ truthy (Some (text_of response)) = true
    /\ invalid_tests (Some (text_of response)) = false
    /\ invalid_code (Some (code_of response)) = false
    /\ forall provider,
         serviceable env provider calls -> serviceable env' provider (calls - 1).
Proof.
  intros Hserve Hcalls.
  destruct (usable_reply env _ calls (invocations env) Hserve)
    as (response & Hreply & Htext & Htests & Hcode).
  destruct Hserve as ((p & Hprovider & Hp & Hclient) & Hquota & Husable).
  exists response. unfold bind, get_llm, try_except, invoke, ret.
  rewrite Hprovider.
  assert (Hgiven : truthy (Some p) && bool_decide (p ∈ llm_clients env) = true).
  { rewrite bool_decide_eq_true_2 by done. by destruct p. }
  destruct (enable_quota_protection env) eqn:Hprotect; cbn [andb].
  - destruct Hquota as [|Hquota]; [done|].
    rewrite (proj2 (Z.leb_gt _ _)) by lia.
    cbn [llm_clients with_api_calls]. rewrite Hgiven.
    cbn [service invocations with_api_calls]. rewrite Hreply.
    eexists. split; [reflexivity|].
    split; [exact Htext|]. split; [exact Htests|]. split; [exact Hcode|].
    intros provider ((q & Hq & Hne & Hin) & Hquota' & Husable').
    split; [by exists q|]. split; [|exact Husable'].
    destruct Hquota' as [Hoff|Hle]; [congruence|]. right. cbn. lia.
  - rewrite Hgiven, Hreply. eexists. split; [reflexivity|].
    split; [exact Htext|]. split; [exact Htests|]. split; [exact Hcode|].
    intros provider ((q & Hq & Hne & Hin) & Hquota' & Husable').
    split; [by exists q|]. split; [by left|exact Husable'].
Qed.

Lemma invalid_code_get_or_empty state key :
  invalid_code (get_or_empty state key) = invalid_code (get state key).
Proof. unfold get_or_empty, get. by destruct (fields state !! key). Qed.

Lemma invalid_tests_get_or_empty state key :
  invalid_tests (get_or_empty state key) = invalid_tests (get state key).
Proof. unfold get_or_empty, get. by destruct (fields state !! key). Qed.

Lemma valid_code_truthy code : invalid_code code = false -> truthy code = true.
Proof.
  unfold invalid_code. intros [[H _]%orb_false_elim _]%orb_false_elim.
  by apply negb_false_iff.
Qed.

Lemma get_or_empty_of_get state key s :
  get state key = Some s -> get_or_empty state key = Some s.
Proof. unfold get_or_empty, get. by destruct (fields state !! key). Qed.

Ltac route_on Hout :=
  unfold destination_of; cbn [edges];
  unfold decide_after_po_review, decide_after_design_review,
    decide_after_code_review, decide_after_security_review,
    decide_after_test_cases_review, decide_after_qa_testing;
  rewrite Hout; by destruct (25 <? _).

(** One stage of the straight run: it finds what it needs, leaves what the
    next stage needs, and the graph goes on along the success branch. *)
Lemma straight_step (n : Node) (state : WorkflowState) (env : Env) :
  ready n state ->
  serviceable env (get state "llm_provider") (calls_needed n) ->
  exists (result : WorkflowState) (env' : Env),
    node_function n state env = (Returned result, env')
    /\ match forced_next n with
       | Some next =>
           serviceable env' (get state "llm_provider") (calls_needed next)
           /\ destination_of n (merge state result) = Goto next
           /\ ready next (merge state result)
       | None =>
           destination_of n (merge state result) = Stop
           /\ delivered (merge state result)
       end.
Proof.
  intros Hready Hserve.
  destruct n; try contradiction; cbn [ready calls_needed forced_next] in *;
    unfold node_function.
  - (* gather_requirements *)
    unfold gather_requirements, bind, text_area, ret.
    destruct (truthy (Some (default _ (user_requirements_input env)))) eqn:Hinput;
      cbn [negb]; eexists _, _; (split; [reflexivity|]);
      (split; [exact Hserve|]); (split; [reflexivity|]).
    + erewrite get_merge_written; [exact Hinput|]. apply fields_set_eq.
    + by rewrite get_merge_untouched.
  - (* create_user_stories *)
    unfold create_user_stories. rewrite get_increment, Hready. cbn [negb].
    edestruct (generation_succeeds (A := WorkflowState)
                 (increment_step_counter state) env 5)
      as (response & env' & Hrun & Htext & Htests & Hcode & Hserve');
      [exact Hserve|lia|].
    eexists _, env'. split; [exact Hrun|].
    split; [by apply Hserve'|]. split; [reflexivity|].
    erewrite get_merge_written; [exact Htext|]. apply fields_set_eq.
  - (* product_owner_review *)
    unfold product_owner_review, ret.
    rewrite get_or_empty_increment, truthy_get_or_empty, Hready. cbn [negb].
    eexists _, env. split; [reflexivity|]. split; [exact Hserve|]. split.
    + match goal with |- destination_of _ ?s = _ =>
        assert (Hout : get s "po_review_outcome" = Some "Approved")
          by (apply get_merge_written; by rewrite fields_set_ne, fields_set_eq)
      end.
      route_on Hout.
    + rewrite get_merge_untouched; [done|]. by rewrite !fields_set_ne.
  - (* create_design *)
    unfold create_design.
    rewrite get_or_empty_increment, truthy_get_or_empty, Hready. cbn [negb].
    edestruct (generation_succeeds (A := WorkflowState)
                 (increment_step_counter state) env 4)
      as (response & env' & Hrun & Htext & Htests & Hcode & Hserve');
      [exact Hserve|lia|].
    eexists _, env'. split; [exact Hrun|].
    split; [by apply Hserve'|]. split; [reflexivity|].
    erewrite get_merge_written; [exact Htext|]. apply fields_set_eq.
  - (* design_review *)
    unfold design_review, ret.
    rewrite get_or_empty_increment, truthy_get_or_empty, Hready. cbn [negb].
    eexists _, env. split; [reflexivity|]. split; [exact Hserve|]. split.
    + match goal with |- destination_of _ ?s = _ =>
        assert (Hout : get s "design_review_outcome" = Some "Approved")
          by (apply get_merge_written; by rewrite fields_set_ne, fields_set_eq)
      end.
      route_on Hout.
    + rewrite get_merge_untouched; [done|]. by rewrite !fields_set_ne.
  - (* generate_code *)
    unfold generate_code, py_or. rewrite !get_increment, Hready, Hready.
    cbn [negb].
    edestruct (generation_succeeds (A := WorkflowState)
                 (increment_step_counter state) env 3)
      as (response & env' & Hrun & Htext & Htests & Hcode & Hserve');
      [exact Hserve|lia|].
    eexists _, env'. split; [exact Hrun|].
    split; [by apply Hserve'|]. split; [reflexivity|].
    erewrite get_merge_written; [exact Hcode|]. apply fields_set_eq.
  - (* code_review *)
    unfold code_review, ret.
    rewrite get_or_empty_increment, invalid_code_get_or_empty, Hready.
    eexists _, env. split; [reflexivity|]. split; [exact Hserve|]. split.
    + match goal with |- destination_of _ ?s = _ =>
        assert (Hout : get s "code_review_outcome" = Some "Approved")
          by (apply get_merge_written; by rewrite fields_set_ne, fields_set_eq)
      end.
      route_on Hout.
    + rewrite get_merge_untouched; [done|]. by rewrite !fields_set_ne.
  - (* security_review *)
    unfold security_review, ret.
    rewrite get_or_empty_increment, invalid_code_get_or_empty, Hready.
    eexists _, env. split; [reflexivity|]. split; [exact Hserve|]. split.
    + match goal with |- destination_of _ ?s = _ =>
        assert (Hout : get s "security_review_outcome" = Some "Approved")
          by (apply get_merge_written; by rewrite fields_set_ne, fields_set_eq)
      end.
      route_on Hout.
    + rewrite get_merge_untouched; [done|]. by rewrite !fields_set_ne.
  - (* write_test_cases *)
    unfold write_test_cases.
    rewrite get_or_empty_increment, invalid_code_get_or_empty, Hready.
    edestruct (generation_succeeds (A := WorkflowState)
                 (increment_step_counter state) env 2)
      as (response & env' & Hrun & Htext & Htests & Hcode & Hserve');
      [exact Hserve|lia|].
    eexists _, env'. split; [exact Hrun|].
    split; [by apply Hserve'|]. split; [reflexivity|]. split.
    + rewrite get_merge_untouched; [done|]. by rewrite !fields_set_ne.
    + erewrite get_merge_written; [exact Htests|]. apply fields_set_eq.
  - (* test_cases_review *)
    destruct Hready as [Hcode Htests].
    unfold test_cases_review, ret.
    rewrite get_or_empty_increment, invalid_tests_get_or_empty, Htests.
    eexists _, env. split; [reflexivity|]. split; [exact Hserve|]. split.
    + match goal with |- destination_of _ ?s = _ =>
        assert (Hout : get s "test_case_review_outcome" = Some "Approved")
          by (apply get_merge_written; by rewrite fields_set_ne, fields_set_eq)
      end.
      route_on Hout.
    + split; (rewrite get_merge_untouched; [done|]); by rewrite !fields_set_ne.
  - (* qa_testing *)
    destruct Hready as [Hcode Htests].
    unfold qa_testing, ret.
    rewrite !get_or_empty_increment, truthy_get_or_empty,
      invalid_tests_get_or_empty, (valid_code_truthy _ Hcode), Htests.
    cbn [negb orb].
    eexists _, env. split; [reflexivity|]. split; [exact Hserve|].
    match goal with |- destination_of _ ?s = _ /\ _ =>
      assert (Hout : get s "qa_test_outcome" = Some "Passed")
        by (apply get_merge_written; by rewrite fields_set_ne, fields_set_eq)
    end.
    split; [route_on Hout|]. split; [|exact Hout].
    rewrite get_merge_untouched; [done|]. by rewrite !fields_set_ne.
  - (* deployment *)
    destruct Hready as [Hcode Hpassed].
    unfold deployment, ret.
    rewrite !get_or_empty_increment, truthy_get_or_empty,
      (valid_code_truthy _ Hcode), (get_or_empty_of_get _ _ _ Hpassed).
    eexists _, env. split; [reflexivity|]. split; [exact Hserve|].
    split; [reflexivity|]. split.
    + rewrite get_merge_untouched; [done|]. by rewrite !fields_set_ne.
    + unfold delivered. erewrite get_merge_written; [reflexivity|].
      by rewrite fields_set_eq.
  - (* monitoring_and_feedback *)
    destruct Hready as [Hcode Hdone].
    unfold monitoring_and_feedback.
    rewrite !get_or_empty_increment, invalid_code_get_or_empty, Hcode.
    edestruct (generation_succeeds (A := string)
                 (increment_step_counter state) env 1)
      as (response & env' & Hrun & _ & _ & _ & Hserve'); [exact Hserve|lia|].
    eexists _, env'. unfold bind at 1. rewrite Hrun. unfold ret at 1.
    split; [reflexivity|]. split; [by apply Hserve'|]. split; [reflexivity|].
    unfold delivered. rewrite get_merge_untouched; [done|]. by rewrite !fields_set_ne.
  - (* maintenance_and_updates *)
    unfold maintenance_and_updates, ret. eexists _, env.
    split; [reflexivity|]. split; [reflexivity|].
    unfold delivered. by rewrite get_merge_untouched.
Qed.

Lemma straight_run k : forall n state env limit,
  (remaining n <= k)%nat ->
  ready n state ->
  serviceable env (get state "llm_provider") (calls_needed n) ->
  (remaining n <= limit)%nat ->
  exists (final : WorkflowState) (env' : Env),
    run_from limit n state env
    = (Finished final (path_from (remaining n) n), env')
    /\ delivered final.
Proof.
  induction k as [|k IH]; intros n state env limit Hk Hready Hserve Hlimit.
  { destruct n; simpl in Hk; lia. }
  destruct limit as [|limit]; [destruct n; simpl in Hlimit; lia|].
  destruct (straight_step n state env Hready Hserve)
    as (result & env' & Hnode & Hnext).
  cbn [run_from]. rewrite Hnode.
  destruct (forced_next n) as [next|] eqn:Hforced.
  - destruct Hnext as (Hserve' & Hdest & Hready').
    pose proof (remaining_forced _ _ Hforced) as Hremaining.
    rewrite Hdest, Hremaining. cbn [path_from]. rewrite Hforced.
    destruct (IH next (merge state result) env' limit) as (final & env'' & Hrun & Hdone);
      [lia|exact Hready'| |lia|].
    { rewrite get_merge_untouched; [exact Hserve'|].
      by eapply node_keeps_provider. }
    rewrite Hrun. by exists final, env''.
  - destruct Hnext as [Hdest Hdone]. rewrite Hdest.
    destruct n; try discriminate. by eexists _, _.
Qed.

(** With a client and usable replies the run takes the straight path. *)
Lemma run_with_usable_replies (state : WorkflowState) (env : Env) (limit : nat) :
  truthy (get state "user_requirements") = true ->
  serviceable env (get state "llm_provider") 5 ->
  (14 <= limit)%nat ->
  exists (final : WorkflowState) (env' : Env),
    run limit state env = (Finished final straight_trace, env')
    /\ get final "deployment_status" = Some deployed_status.
Proof.
  intros Hreq Hserve Hlimit.
  apply (straight_run 14 n_gather_requirements state env limit);
    [simpl; lia|exact Hreq|exact Hserve|simpl; lia].
Qed.

(** The scenario of the page: fixed, usable replies give the straight run,
    one log entry and a status that starts with "Deployed". *)
Example page_scenario :
  match fst (run max_steps_allowed fresh_state (answering "def login(): pass")) with
  | Finished final trace =>
      trace = straight_trace
      /\ maintenance_updates_log final = Some [log_entry]
      /\ starts (get final "deployment_status") "Deployed" = true
      /\ get final "generated_code" = Some "def login(): pass"
      /\ step_counter final = Some (-1)
  | _ => False
  end.
Proof. vm_compute. repeat split. Qed.

(** C2, as stated, fails: from the initial state of the page, with a client
    whose every call returns a string, the run is not over after 30 stage
    invocations.  With the empty string, every design comes out empty and
    [design_review] rejects it until the loop guard opens (36 invocations);
    with a text that starts with ["# Error"], [code_review] rejects the code
    until then (34 invocations). *)
Lemma cap_exceeded_with_working_service :
  truthy (get fresh_state "user_requirements") = true
  /\ (forall k, service (answering "") k = Reply (AIMessage ""))
  /\ fst (run max_steps_allowed fresh_state (answering "")) = RecursionLimitExceeded
  /\ match fst (run 36 fresh_state (answering "")) with
     | Finished _ trace => length trace = 36%nat
     | _ => False
     end
  /\ fst (run max_steps_allowed fresh_state (answering "# Error handling"))
     = RecursionLimitExceeded
  /\ match fst (run 34 fresh_state (answering "# Error handling")) with
     | Finished _ trace => length trace = 34%nat
     | _ => False
     end.
Proof.
  split; [reflexivity|]. split; [reflexivity|].
  split; [vm_compute; reflexivity|]. split; [vm_compute; reflexivity|].
  split; vm_compute; reflexivity.
Qed.

(** C2 (amended): for every initial state with [step_counter] 0 and non-empty
    [user_requirements], and every generation service -- whether its calls
    return text, raise, or are refused -- the run from [gather_requirements]
    reaches [maintenance_and_updates] and stops there after at most 36 stage
    invocations, under any limit of 36 or more; and when a client is there
    for five calls and every reply is usable, the run takes exactly the 14
    stages of the straight path, within the cap of 30. *)
Theorem run_reaches_terminal (state : WorkflowState) (env : Env) :
  counter state = 0 ->
  truthy (get state "user_requirements") = true ->
  (forall limit : nat,
     (36 <= limit)%nat ->
     exists (final : WorkflowState) (trace : list Node) (env' : Env),
       run limit state env = (Finished final trace, env')
       /\ (length trace <= 36)%nat
       /\ last trace = Some n_maintenance_and_updates)
  /\ (serviceable env (get state "llm_provider") 5 ->
      forall limit : nat,
        (14 <= limit)%nat ->
        exists (final : WorkflowState) (env' : Env),
          run limit state env = (Finished final straight_trace, env')
          /\ length straight_trace = 14%nat
          /\ (length straight_trace <= max_steps_allowed)%nat
          /\ last straight_trace = Some n_maintenance_and_updates
          /\ get final "deployment_status" = Some deployed_status).
Proof.
  intros Hzero Hreq. split.
  - intros limit Hlimit. by apply run_within_loop_guard.
  - intros Hserve limit Hlimit.
    destruct (run_with_usable_replies state env limit Hreq Hserve Hlimit)
      as (final & env' & Hrun & Hdone).
    exists final, env'. split; [exact Hrun|]. split; [reflexivity|].
    split; [unfold max_steps_allowed; simpl; lia|]. by split.
Qed.

Lemma run_reaches_terminal_on_page :
  counter fresh_state = 0
  /\ truthy (get fresh_state "user_requirements") = true
  /\ serviceable (answering "def login(): pass") (get fresh_state "llm_provider") 5
  /\ (exists (final : WorkflowState) (trace : list Node) (env' : Env),
        run 36 fresh_state (answering "") = (Finished final trace, env')
        /\ (length trace <= 36)%nat)
  /\ exists (final : WorkflowState) (env' : Env),
       run max_steps_allowed fresh_state (answering "def login(): pass")
       = (Finished final straight_trace, env')
       /\ get final "deployment_status" = Some deployed_status.
Proof.
  assert (Hzero : counter fresh_state = 0) by reflexivity.
  assert (Hreq : truthy (get fresh_state "user_requirements") = true)
    by reflexivity.
  assert (Hserve : serviceable (answering "def login(): pass")
                     (get fresh_state "llm_provider") 5).
  { split; [exists "groq"; split; [reflexivity|]; split; [discriminate|]|].
    - apply list_elem_of_In. left. reflexivity.
    - split; [right; vm_compute; discriminate|]. intros k. vm_compute. reflexivity. }
  split; [exact Hzero|]. split; [exact Hreq|]. split; [exact Hserve|].
  split.
  - destruct (run_reaches_terminal fresh_state (answering "") Hzero Hreq)
      as [Hbound _].
    destruct (Hbound 36%nat (le_n 36)) as (final & trace & env' & Hrun & Hlen & _).
    exists final, trace, env'. split; [exact Hrun|exact Hlen].
  - destruct (run_reaches_terminal fresh_state (answering "def login(): pass")
                Hzero Hreq) as [_ Hstraight].
    destruct (Hstraight Hserve max_steps_allowed) as (final & env' & Hrun & _ & _ & _ & Hdone).
    { unfold max_steps_allowed. lia. }
    exists final, env'. split; [exact Hrun|exact Hdone].
Defined.

(** * Further properties of the code *)

(** ** The graph: names, routes, reachability *)

(** X1: the graph of [create_workflow_graph] is well formed.  Every stage is
    found under its name; every target of an edge or of a path map names a
    stage; whatever the state, the destination after a stage is one of its
    successors, and only [maintenance_and_updates] leads to END; every stage
    can be reached from the entry point, and the terminal stage from every
    stage. *)
Theorem graph_well_formed (n : Node) :
  node_named (node_name n) = Some n
  /\ Forall (fun target => is_Some (node_named target)) (targets n)
  /\ (forall state,
        match destination_of n state with
        | Goto next => In next (successors n)
        | Stop => n = n_maintenance_and_updates
        | Unknown_target _ => False
        end)
  /\ (successors n = [] <-> n = n_maintenance_and_updates)
  /\ within 13 n_gather_requirements n = true
  /\ within 13 n n_maintenance_and_updates = true.
Proof.
  split; [by destruct n|]. split; [destruct n; repeat constructor; by eexists|].
  split; [|split; [|split]].
  - intros state. destruct n; decision_cases; vm_compute; tauto.
  - destruct n; vm_compute; split; (done || discriminate).
  - destruct n; vm_compute; reflexivity.
  - destruct n; vm_compute; reflexivity.
Qed.

(** ** What a stage call changes *)

Lemma set_keeps_keys state key value other :
  is_Some (fields state !! other) -> is_Some (fields (set state key value) !! other).
Proof.
  intros Hsome. unfold set; cbn [fields]. rewrite lookup_insert.
  by case_decide.
Qed.

Lemma node_effects (n : Node) (state : WorkflowState) (env : Env) :
  exists (result : WorkflowState) (env' : Env),
    node_function n state env = (Returned result, env')
    /\ (forall key, key ∉ writes n -> fields result !! key = fields state !! key)
    /\ (forall key, is_Some (fields state !! key) -> is_Some (fields result !! key))
    /\ (n <> n_maintenance_and_updates ->
        maintenance_updates_log result = maintenance_updates_log state)
    /\ (enable_quota_protection env' = enable_quota_protection env
        /\ max_api_calls env' = max_api_calls env
        /\ llm_clients env' = llm_clients env
        /\ service env' = service env)
    /\ (invocations env <= invocations env' <= invocations env + 1)%nat
    /\ (api_calls env <= api_calls env' <= api_calls env + 1)
    /\ (enable_quota_protection env = true ->
        Z.of_nat (invocations env') - Z.of_nat (invocations env)
        <= api_calls env' - api_calls env
        /\ (api_calls env' <> api_calls env -> api_calls env < max_api_calls env)).
Proof.
  destruct n; node_paths; eexists _, _; (split; [reflexivity|]);
    cbn [enable_quota_protection max_api_calls llm_clients service invocations
         api_calls with_api_calls with_invocations with_input];
    (split; [intros key Hkey;
             rewrite ?fields_set_ne by (intros <-; apply Hkey; set_solver);
             reflexivity|]);
    (split; [intros key Hsome; repeat apply set_keeps_keys; exact Hsome|]);
    (split; [by intros|]);
    (split; [done|]); (split; [lia|]); (split; [lia|]);
    intros Hprotect; (split; [lia|]); intros Hcharged;
    try (exfalso; apply Hcharged; reflexivity);
    try congruence;
    repeat match goal with
           | H : _ && _ = false |- _ => apply andb_false_iff in H as [H|H]
           | H : (_ <=? _) = false |- _ => apply Z.leb_gt in H
           end; try congruence; lia.
Qed.

(** X2: a stage function returns with only its own keys changed: every
    other key holds what it held (an absent key stays absent), no key of the
    state is removed, and the maintenance log is touched by
    [maintenance_and_updates] alone. *)
Theorem node_frame (n : Node) (state : WorkflowState) (env : Env) :
  exists (result : WorkflowState) (env' : Env),
    node_function n state env = (Returned result, env')
    /\ (forall key, key ∉ writes n -> fields result !! key = fields state !! key)
    /\ (forall key, is_Some (fields state !! key) -> is_Some (fields result !! key))
    /\ (n <> n_maintenance_and_updates ->
        maintenance_updates_log result = maintenance_updates_log state).
Proof.
  destruct (node_effects n state env)
    as (result & env' & Hrun & Hframe & Hkeys & Hlog & _).
  exists result, env'. split; [exact Hrun|]. split; [exact Hframe|].
  split; [exact Hkeys|exact Hlog].
Qed.

Lemma within_budget_refl env : within_budget env env.
Proof. repeat split; lia. Qed.

Lemma within_budget_trans env1 env2 env3 :
  within_budget env1 env2 -> within_budget env2 env3 -> within_budget env1 env3.
Proof.
  intros (Hp1 & Hm1 & Hc1 & Hi1 & Ha1 & Hq1) (Hp2 & Hm2 & Hc2 & Hi2 & Ha2 & Hq2).
  split; [congruence|]. split; [congruence|]. split; [congruence|].
  split; [lia|]. split; [lia|]. intros Hprotect.
  destruct (Hq1 Hprotect) as [Hpaid1 Hmax1].
  destruct (Hq2 ltac:(congruence)) as [Hpaid2 Hmax2].
  split; [lia|]. intros Hle. rewrite <- Hm1. apply Hmax2. rewrite Hm1. by apply Hmax1.
Qed.

Lemma node_within_budget n state env result env' :
  node_function n state env = (Returned result, env') ->
  within_budget env env'.
Proof.
  intros Hrun.
  destruct (node_effects n state env)
    as (result' & env'' & Hrun' & _ & _ & _ & (Hp & Hm & Hc & _) & Hi & Ha & Hq).
  rewrite Hrun in Hrun'. injection Hrun' as <- <-.
  split; [exact Hp|]. split; [exact Hm|]. split; [exact Hc|]. split; [lia|]. split; [lia|].
  intros Hprotect. destruct (Hq Hprotect) as [Hpaid Hopen].
  split; [exact Hpaid|]. intros Hle.
  destruct (decide (api_calls env' = api_calls env)) as [->|Hne]; [exact Hle|].
  specialize (Hopen Hne). lia.
Qed.

Lemma run_within_budget limit : forall n state env,
  within_budget env (snd (run_from limit n state env)).
Proof.
  induction limit as [|limit IH]; intros n state env; [apply within_budget_refl|].
  cbn [run_from].
  destruct (node_returns_and_counts n state env) as (result & env1 & Hnode & _).
  rewrite Hnode.
  pose proof (node_within_budget _ _ _ _ _ Hnode) as Hstep.
  destruct (destination_of n (merge state result)) as [next| |name];
    [|exact Hstep|exact Hstep].
  specialize (IH next (merge state result) env1).
  destruct (run_from limit next (merge state result) env1) as [[final trace| |e] env2];
    cbn [snd] in *; by eapply within_budget_trans.
Qed.

(** X4: with the quota protection on and the call counter within the
    maximum, a run, however long and whatever the service does, leaves the
    counter within the maximum and makes at most as many generation calls as
    the quota had left. *)
Theorem quota_bounds_run (limit : nat) (state : WorkflowState) (env : Env) :
  enable_quota_protection env = true ->
  api_calls env <= max_api_calls env ->
  let env' := snd (run limit state env) in
  api_calls env' <= max_api_calls env
  /\ Z.of_nat (invocations env') - Z.of_nat (invocations env)
     <= max_api_calls env - api_calls env.
Proof.
  intros Hprotect Hle env'.
  destruct (run_within_budget limit n_gather_requirements state env)
    as (_ & _ & _ & _ & _ & Hq).
  destruct (Hq Hprotect) as [Hpaid Hmax]. specialize (Hmax Hle).
  change (snd (run_from limit n_gather_requirements state env)) with env' in *.
  lia.
Qed.

Lemma quota_bounds_run_on_page :
  let env := answering "" in
  let env' := snd (run 36 fresh_state env) in
  enable_quota_protection env = true
  /\ api_calls env <= max_api_calls env
  /\ api_calls env' <= max_api_calls env
  /\ Z.of_nat (invocations env') - Z.of_nat (invocations env)
     <= max_api_calls env - api_calls env.
Proof.
  intros env env'.
  assert (Hprotect : enable_quota_protection env = true) by reflexivity.
  assert (Hle : api_calls env <= max_api_calls env) by (vm_compute; discriminate).
  split; [exact Hprotect|]. split; [exact Hle|].
  exact (quota_bounds_run 36 fresh_state env Hprotect Hle).
Defined.

Lemma destination_follows_edges n state next :
  destination_of n state = Goto next -> In next (successors n).
Proof.
  destruct n; decision_cases; intros [= <-]; vm_compute; tauto.
Qed.

Lemma log_merge_kept state patch :
  maintenance_updates_log patch = maintenance_updates_log state ->
  default [] (maintenance_updates_log state) = [] ->
  default [] (maintenance_updates_log (merge state patch)) = [].
Proof.
  unfold merge; cbn [maintenance_updates_log]. intros -> Hempty.
  destruct (maintenance_updates_log state) as [log|]; [|done].
  cbn [default] in *. by rewrite Hempty.
Qed.

(** X5: a run never fails: it finishes, or it runs out of steps.  When it
    finishes, the stages invoked start with the one the run started at,
    follow the edges of the graph, and end with [maintenance_and_updates],
    invoked once; they are no more than the limit; the final state has
    [step_counter] -1, and a log that was empty or absent at the start holds
    exactly the entry of the terminal stage. *)
Theorem run_outcome (limit : nat) (n : Node) (state : WorkflowState) (env : Env) :
  match fst (run_from limit n state env) with
  | Finished final trace =>
      step_counter final = Some (-1)
      /\ hd_error trace = Some n
      /\ last trace = Some n_maintenance_and_updates
      /\ count_occ Node_eq_dec trace n_maintenance_and_updates = 1%nat
      /\ follows_edges trace
      /\ (length trace <= limit)%nat
      /\ (default [] (maintenance_updates_log state) = [] ->
          maintenance_updates_log final = Some [log_entry])
  | RecursionLimitExceeded => True
  | Failed _ => False
  end.
Proof.
  revert n state env. induction limit as [|limit IH]; intros n state env; [done|].
  cbn [run_from].
  destruct (node_effects n state env)
    as (result & env1 & Hnode & _ & _ & Hlog & _).
  destruct (node_returns_and_counts n state env) as (result' & env1' & Hnode' & Hcount).
  rewrite Hnode in Hnode'. injection Hnode' as <- <-.
  rewrite Hnode.
  pose proof (destination_known n (merge state result)) as Hknown.
  destruct (destination_of n (merge state result)) as [next| |name] eqn:Hdest;
    [|subst n|done].
  - specialize (IH next (merge state result) env1).
    destruct (run_from limit next (merge state result) env1)
      as [[final trace| |e] env2]; cbn [fst] in *; [|done|done].
    destruct IH as (Hfinal & Hhead & Hlast & Honce & Hedges & Hlen & Hentry).
    destruct Hknown as [Hn _].
    split; [done|]. split; [done|].
    destruct trace as [|first rest]; [discriminate|].
    split; [by rewrite last_cons, Hlast|].
    split; [rewrite count_occ_cons_neq by done; exact Honce|].
    injection Hhead as ->.
    split; [split; [by eapply destination_follows_edges|exact Hedges]|].
    split; [simpl in *; lia|].
    intros Hempty. apply Hentry. apply log_merge_kept; [by apply Hlog|exact Hempty].
  - cbn [fst]. split; [by apply step_counter_merge|]. split; [done|].
    split; [done|]. split; [by rewrite count_occ_cons_eq|]. split; [done|].
    split; [simpl; lia|].
    intros Hempty. unfold node_function, maintenance_and_updates, ret in Hnode.
    injection Hnode as <- _. unfold merge; cbn.
    by rewrite Hempty.
Qed.

Lemma guard_after_increment c : (25 <? c + 1) = (25 <=? c).
Proof. destruct (Z.ltb_spec 25 (c + 1)), (Z.leb_spec 25 c); (done || lia). Qed.

Ltac written :=
  first [ apply fields_set_eq
        | rewrite fields_set_ne by done; apply fields_set_eq ].

Ltac routed :=
  unfold destination_of; cbn [edges];
  unfold decide_after_po_review, decide_after_design_review,
    decide_after_code_review, decide_after_security_review,
    decide_after_test_cases_review, decide_after_qa_testing;
  rewrite (counter_merge _ _ (counter _ + 1)) by reflexivity;
  rewrite guard_after_increment;
  first [ erewrite get_merge_written by written
        | rewrite get_merge_untouched by reflexivity ];
  destruct (25 <=? counter _); rewrite ?orb_true_r, ?orb_false_r; [reflexivity|];
  rewrite ?bool_decide_eq_true_2 by done;
  rewrite ?bool_decide_eq_false_2 by done;
  try reflexivity.

Lemma review_outcome (g : gate) (state : WorkflowState) (env : Env) :
  In g gates -> review_then_route g state env.
Proof.
  revert g. apply gates_cases. unfold gates, review_then_route.
  repeat apply List.Forall_cons; try apply List.Forall_nil;
    cbn [review outcome_key feedback_key success_value success_branch remediation
         passes node_function];
    unfold product_owner_review, design_review, code_review, security_review,
      test_cases_review, qa_testing, ret;
    rewrite ?get_or_empty_increment, ?truthy_get_or_empty,
      ?invalid_code_get_or_empty, ?invalid_tests_get_or_empty.
  - destruct (truthy (get state "user_stories")); cbn [negb orb];
      eexists; (split; [reflexivity|]); (split; [|routed]);
      rewrite get_set_ne, get_set_eq by done; split; (done || discriminate).
  - destruct (truthy (get state "design_documents")); cbn [negb orb];
      eexists; (split; [reflexivity|]); (split; [|routed]);
      rewrite get_set_ne, get_set_eq by done; split; (done || discriminate).
  - destruct (invalid_code (get state "generated_code")); cbn [negb orb];
      eexists; (split; [reflexivity|]); (split; [|routed]);
      rewrite get_set_ne, get_set_eq by done; split; (done || discriminate).
  - destruct (invalid_code (get state "generated_code")); cbn [negb orb];
      eexists; (split; [reflexivity|]); (split; [|routed]).
    + rewrite get_increment. by rewrite bool_decide_eq_true.
    + by case_bool_decide.
    + rewrite get_set_ne, get_set_eq by done. done.
  - destruct (invalid_tests (get state "test_cases")); cbn [negb orb];
      eexists; (split; [reflexivity|]); (split; [|routed]);
      rewrite get_set_ne, get_set_eq by done; split; (done || discriminate).
  - destruct (truthy (get state "generated_code")),
      (invalid_tests (get state "test_cases")); cbn [negb orb andb];
      eexists; (split; [reflexivity|]); (split; [|routed]);
      rewrite get_set_ne, get_set_eq by done; split; (done || discriminate).
Qed.

(** X6: for each of the six review stages, the stage returns without
    touching the session, it stores the success value in its outcome field
    exactly when the artifact it reviews passes, and the graph then goes to
    the success branch when the artifact passes or the loop guard is open
    (the counter it found was 25 or more), and to the remediation stage
    otherwise. *)
Theorem reviews_route_on_their_verdict (state : WorkflowState) (env : Env) :
  Forall (fun g => review_then_route g state env) gates.
Proof. apply List.Forall_forall. intros g Hin. by apply review_outcome. Qed.

Lemma node_step n state env result env' :
  node_function n state env = (Returned result, env') ->
  (forall key, key ∉ writes n -> get (merge state result) key = get state key)
  /\ (n <> n_maintenance_and_updates -> counter (merge state result) = counter state + 1).
Proof.
  intros Hrun.
  destruct (node_effects n state env) as (r & e & Hrun' & Hframe & _).
  destruct (node_returns n state env) as (r' & e' & Hrun'' & Hcount).
  rewrite Hrun in Hrun', Hrun''. injection Hrun' as <- <-. injection Hrun'' as <- <-.
  split; [|intros Hn; by apply Hcount].
  intros key Hkey. apply get_merge_untouched. by apply Hframe.
Qed.

Lemma review_next n g state env result env' next :
  gate_of n = Some g ->
  node_function n state env = (Returned result, env') ->
  destination_of n (merge state result) = Goto next ->
  next = if passes n state || (25 <=? counter state)
         then success_branch g else remediation g.
Proof.
  intros [Hin Hreview%bool_decide_eq_true]%find_some Hrun Hdest. subst n.
  destruct (review_outcome g state env Hin) as (r & Hrun' & _ & Hroute).
  rewrite Hrun in Hrun'. injection Hrun' as <- <-. congruence.
Qed.

Ltac listed := repeat first [apply list_elem_of_here | apply list_elem_of_further].

Ltac not_listed H :=
  repeat (apply elem_of_cons in H as [H|H]; [discriminate H|]);
  by apply elem_of_nil in H.

Ltac review_cases Hrun Hdest :=
  let Hnext := fresh "Hnext" in
  pose proof (fun g Hg => review_next _ g _ _ _ _ _ Hg Hrun Hdest) as Hnext;
  specialize (Hnext _ eq_refl);
  cbn [success_branch remediation passes] in Hnext;
  let Hpass := fresh "Hpass" in
  match type of Hnext with
  | _ = if ?c then _ else _ => destruct c eqn:Hpass
  end; subst; cbn [expects].

Lemma expects_step n state env result env' next :
  expects n state ->
  node_function n state env = (Returned result, env') ->
  destination_of n (merge state result) = Goto next ->
  expects next (merge state result).
Proof.
  intros Hexp Hrun Hdest.
  destruct (node_step _ _ _ _ _ Hrun) as [Hframe Hcount].
  destruct n; cbn [expects] in Hexp; try done.
  all: try (injection Hdest as <-; cbn [expects]; done).
  all: try specialize (Hcount ltac:(done)).
  all: try (review_cases Hrun Hdest).
  all: try done.
  all: rewrite ?Hcount.
  all: rewrite ?Hframe by (cbn [writes]; intros Hin; not_listed Hin).
  all: try (injection Hdest as <-; cbn [expects]).
  all: rewrite ?Hcount.
  all: rewrite ?Hframe by (cbn [writes]; intros Hin; not_listed Hin).
  all: repeat match goal with
         | H : _ || _ = true |- _ => apply orb_true_iff in H as [H|H]
         | H : _ || _ = false |- _ => apply orb_false_iff in H as [? ?]
         | H : _ && _ = false |- _ => apply andb_false_iff in H as [H|H]
         | H : negb _ = true |- _ => apply negb_true_iff in H
         | H : negb _ = false |- _ => apply negb_false_iff in H
         | H : (_ <=? _) = true |- _ => apply Z.leb_le in H
         | H : (_ <=? _) = false |- _ => apply Z.leb_gt in H
         | H : _ \/ _ |- _ => destruct H as [H|H]
         | H : _ /\ _ |- _ => destruct H as [? ?]
         end.
  all: try lia.
  all: try (left; lia).
  all: try (right; done).
  all: try congruence.
  all: try (split; congruence).
  match goal with
  | H : invalid_code ?c = false |- _ => apply valid_code_truthy in H; congruence
  end.
Qed.


Lemma run_avoids limit : forall n state env,
  expects n state ->
  match fst (run_from limit n state env) with
  | Finished _ trace =>
      ~ In n_fix_code_after_security trace
      /\ ~ In n_fix_code_after_qa_feedback trace
  | _ => True
  end.
Proof.
  induction limit as [|limit IH]; intros n state env Hexp; [done|].
  cbn [run_from].
  destruct (node_function n state env) as [[result|e] env1] eqn:Hrun; [|done].
  destruct (destination_of n (merge state result)) as [next| |name] eqn:Hdest;
    [| |done].
  - specialize (IH next (merge state result) env1 (expects_step _ _ _ _ _ _ Hexp Hrun Hdest)).
    destruct (run_from limit next (merge state result) env1)
      as [[final trace| |e] env2]; cbn [fst] in *; [|done|done].
    destruct IH as [Hsec Hqa].
    split; (intros [->|Hin]; [exact Hexp|done]).
  - cbn [fst]. split; (intros [->|[]]; exact Hexp).
Qed.



(** X8: no finished run from the entry point has
    [fix_code_after_security] or [fix_code_after_qa_feedback] among the
    stages it invoked. *)
Theorem fixes_after_security_and_qa_never_run (limit : nat)
  (state : WorkflowState) (env : Env) :
  match fst (run limit state env) with
  | Finished _ trace =>
      ~ In n_fix_code_after_security trace
      /\ ~ In n_fix_code_after_qa_feedback trace
  | _ => True
  end.
Proof. by apply (run_avoids limit n_gather_requirements). Qed.

Lemma truthy_py_or a b :
  truthy (py_or a (py_or b (Some ""))) = truthy a || truthy b.
Proof. unfold py_or. by destruct (truthy a) eqn:Ha, (truthy b) eqn:Hb; rewrite ?Ha, ?Hb. Qed.

Ltac booleans :=
  repeat match goal with
         | H : _ || _ = false |- _ => apply orb_false_iff in H as [? ?]
         | H : _ && _ = true |- _ => apply andb_true_iff in H as [? ?]
         | H : negb _ = true |- _ => apply negb_true_iff in H
         | H : negb _ = false |- _ => apply negb_false_iff in H
         end.

(** X3: what a stage costs.  A stage asks [get_llm] for a client exactly in
    the states of [consults]; it is then charged one API call when the quota
    protection is on and calls are left, whether or not a client exists for
    the provider; and it makes one generation call exactly when a client is
    handed out.  In every other case neither counter moves. *)
Theorem stage_service_use (n : Node) (state : WorkflowState) (env : Env) :
  exists (result : WorkflowState) (env' : Env),
    node_function n state env = (Returned result, env')
    /\ api_calls env'
       = (if consults n state && enable_quota_protection env
             && negb (max_api_calls env <=? api_calls env)
          then api_calls env + 1 else api_calls env)
    /\ invocations env'
       = (if consults n state && negb (unavailable env (get state "llm_provider"))
          then S (invocations env) else invocations env).
Proof.
  set (charged := if consults n state && enable_quota_protection env && _
                  then _ else api_calls env).
  set (called := if consults n state && negb _ then _ else invocations env).
  destruct n; node_paths; eexists _, _; (split; [reflexivity|]);
    cbn [enable_quota_protection max_api_calls llm_clients service invocations
         api_calls with_api_calls with_invocations with_input];
    subst charged called; cbn [consults]; unfold unavailable;
    rewrite ?get_or_empty_increment, ?get_increment, ?truthy_get_or_empty,
      ?invalid_code_get_or_empty, ?truthy_py_or in *;
    booleans;
    match goal with
    | |- context [enable_quota_protection ?e] =>
        destruct (enable_quota_protection e) eqn:Hprotect,
          (max_api_calls e <=? api_calls e) eqn:Hquota
    end;
    cbn [andb orb negb] in *; try discriminate;
    repeat match goal with
           | H : ?b = _ |- context [?b] => rewrite H
           end;
    cbn [andb orb negb truthy];
    rewrite ?andb_false_r; try done.
  all: match goal with
       | H : negb ?a || negb ?b = true |- _ => by destruct a, b
       end.
Qed.

(** X11: a producer stage that lacks its input returns without asking for a
    client: [create_user_stories], [create_design] and [generate_code] leave
    every key as it was, [write_test_cases] and [monitoring_and_feedback]
    store their skip sentence and change nothing else. *)
Theorem blocked_producer (n : Node) (key : string) (note : option string)
  (state : WorkflowState) (env : Env) :
  when_blocked n = Some (key, note) ->
  consults n state = false ->
  exists result : WorkflowState,
    node_function n state env = (Returned result, env)
    /\ match note with
       | Some sentence => fields result = <[key := Some sentence]> (fields state)
       | None => fields result = fields state
       end.
Proof.
  intros Hblocked Hconsults.
  destruct n; try discriminate; injection Hblocked as <- <-;
    cbn [consults node_function] in *;
    unfold create_user_stories, create_design, generate_code, write_test_cases,
      monitoring_and_feedback, bind, ret;
    rewrite ?get_or_empty_increment, ?get_increment, ?truthy_get_or_empty,
      ?invalid_code_get_or_empty, ?truthy_py_or;
    try apply negb_false_iff in Hconsults;
    rewrite Hconsults; cbn [negb]; eexists; split; reflexivity.
Qed.

Lemma blocked_producer_on_page :
  when_blocked n_write_test_cases
  = Some ("test_cases", Some "Test case generation skipped due to missing code.")
  /\ consults n_write_test_cases fresh_state = false
  /\ exists result : WorkflowState,
       write_test_cases fresh_state (answering "") = (Returned result, answering "")
       /\ fields result
          = <["test_cases" := Some "Test case generation skipped due to missing code."]>
              (fields fresh_state).
Proof.
  split; [reflexivity|]. split; [reflexivity|].
  exact (blocked_producer n_write_test_cases _ _ fresh_state (answering "")
           eq_refl eq_refl).
Defined.

(** ** The log and the reducer *)


(** ** QA testing, then deployment *)

(** X13: [qa_testing] followed by [deployment]: the status is the one that
    starts with "Deployed" exactly when [generated_code] is non-empty and the
    test cases are valid, and the skip status otherwise. *)
Theorem deployed_when_qa_passes (state : WorkflowState) (env : Env) :
  exists tested deployed : WorkflowState,
    qa_testing state env = (Returned tested, env)
    /\ deployment (merge state tested) env = (Returned deployed, env)
    /\ get (merge (merge state tested) deployed) "deployment_status"
       = Some (if passes n_qa_testing state then deployed_status else skipped_status).
Proof.
  unfold qa_testing, deployment, ret. cbn [passes].
  rewrite !get_or_empty_increment, truthy_get_or_empty, invalid_tests_get_or_empty.
  destruct (truthy (get state "generated_code")) eqn:Hcode,
    (invalid_tests (get state "test_cases")) eqn:Htests; cbn [negb orb andb];
    eexists _, _; (split; [reflexivity|]); (split; [reflexivity|]);
    erewrite get_merge_written by apply fields_set_eq; f_equal;
    rewrite !truthy_get_or_empty, !get_increment;
    erewrite !(get_or_empty_of_get _ "qa_test_outcome")
      by (rewrite get_increment; apply get_merge_written;
          rewrite fields_set_ne by done; apply fields_set_eq);
    erewrite (get_merge_written _ _ "qa_test_outcome")
      by (rewrite fields_set_ne by done; apply fields_set_eq);
    rewrite (get_merge_untouched _ _ "generated_code")
      by (by rewrite !fields_set_ne);
    rewrite Hcode; cbn [truthy negb orb];
    repeat case_bool_decide; done.
Qed.

Lemma startswith_app s t p :
  PyStr.startswith s p = true -> PyStr.startswith (s ++ t) p = true.
Proof.
  unfold PyStr.startswith. revert s. induction p as [|c p IH]; intros [|d s]; simpl;
    try done.
  - by destruct t.
  - destruct (Ascii.ascii_dec c d); [apply IH|done].
Qed.

Lemma invalid_code_app s t :
  truthy (Some s) = true ->
  invalid_code (Some s) = true -> invalid_code (Some (s ++ t)) = true.
Proof.
  unfold invalid_code, starts. intros Hs. rewrite Hs. cbn [negb orb].
  intros [H|H]%orb_true_iff; apply orb_true_iff; [left|right].
  - apply orb_true_iff. right. by apply startswith_app.
  - by apply startswith_app.
Qed.

Lemma invalid_tests_app s t :
  truthy (Some s) = true ->
  invalid_tests (Some s) = true -> invalid_tests (Some (s ++ t)) = true.
Proof.
  unfold invalid_tests, starts. intros Hs. rewrite Hs. cbn [negb orb].
  intros [H|H]%orb_true_iff; apply orb_true_iff; [left|right].
  - apply orb_true_iff. right. by apply startswith_app.
  - by apply startswith_app.
Qed.

(** X9: a remediation stage that finds no artifact writes its placeholder
    without a generation call, and the review it hands back to lets the
    placeholder through; after [fix_code_after_qa_feedback], [qa_testing]
    does so when the test cases are valid. *)
Theorem placeholder_passes_review (n : Node) (key text : string)
  (state : WorkflowState) (env : Env) :
  placeholder n = Some (key, text) ->
  truthy (get state key) = false ->
  exists result : WorkflowState,
    node_function n state env = (Returned result, env)
    /\ get (merge state result) key = Some text
    /\ passes (reviewed_by n) (merge state result)
       = match n with
         | n_fix_code_after_qa_feedback =>
             negb (invalid_tests (get state "test_cases"))
         | _ => true
         end.
Proof.
  intros Hplace Hmissing.
  destruct n; try discriminate; injection Hplace as <- <-;
    cbn [node_function reviewed_by passes];
    unfold revise_user_stories, fix_code_after_code_review, fix_code_after_security,
      fix_test_cases_after_review, fix_code_after_qa_feedback, ret;
    rewrite ?get_or_empty_increment, ?truthy_get_or_empty, Hmissing;
    cbn [negb orb];
    eexists; (split; [reflexivity|]);
    erewrite !get_merge_written by apply fields_set_eq;
    (split; [reflexivity|]); try reflexivity.
  rewrite get_merge_untouched by (by rewrite fields_set_ne).
  reflexivity.
Qed.

Lemma placeholder_passes_review_on_page :
  placeholder n_fix_code_after_code_review
  = Some ("generated_code", "# Fixed code (placeholder)")
  /\ truthy (get fresh_state "generated_code") = false
  /\ exists result : WorkflowState,
       fix_code_after_code_review fresh_state (answering "") = (Returned result, answering "")
       /\ passes n_code_review (merge fresh_state result) = true.
Proof.
  split; [reflexivity|]. split; [reflexivity|].
  destruct (placeholder_passes_review n_fix_code_after_code_review _ _
              fresh_state (answering "") eq_refl eq_refl)
    as (result & Hrun & _ & Hpass).
  exists result. split; [exact Hrun|exact Hpass].
Defined.

Lemma get_llm_keeps state env r env1 :
  get_llm state env = (r, env1) ->
  service env1 = service env /\ invocations env1 = invocations env
  /\ exists client, r = Returned client.
Proof.
  unfold get_llm. repeat case_match; intros [= <- <-]; eauto.
Qed.

Lemma truthy_Some v : truthy v = true -> exists s, v = Some s.
Proof. destruct v; [eauto|discriminate]. Qed.

(** X10: when [fix_code_after_code_review] (or
    [fix_test_cases_after_review]) is given a rejected artifact with feedback
    and its generation call cannot give a result -- no client is handed out,
    or the call raises -- the stage returns an artifact the review rejects
    again: only a successful generation call ends the loop before the loop
    guard does. *)
Theorem failed_repair_is_rejected_again (n : Node) (state : WorkflowState) (env : Env) :
  n = n_fix_code_after_code_review \/ n = n_fix_test_cases_after_review ->
  consults n state = true ->
  passes (reviewed_by n) state = false ->
  generation_fails env (get state "llm_provider") ->
  exists (result : WorkflowState) (env' : Env),
    node_function n state env = (Returned result, env')
    /\ passes (reviewed_by n) (merge state result) = false.
Proof.
  intros Hn Hconsults Hrejected Hfails.
  destruct Hn as [-> | ->]; cbn [consults reviewed_by passes node_function] in *;
    apply andb_true_iff in Hconsults as [Hgiven Hfeedback];
    apply negb_false_iff in Hrejected;
    unfold fix_code_after_code_review, fix_test_cases_after_review,
      bind, try_except, ret, invoke;
    rewrite !get_or_empty_increment, !truthy_get_or_empty, Hgiven, Hfeedback;
    cbn [negb orb];
    destruct (get_llm (increment_step_counter state) env) as [r env1] eqn:Hllm;
    destruct (get_llm_keeps _ _ _ _ Hllm) as (Hservice & Hcalls & [client ->]);
    pose proof (get_llm_unavailable (increment_step_counter state) env) as Hoff;
    rewrite Hllm, get_increment in Hoff; cbn [fst] in Hoff;
    (destruct client as [llm|];
     [ destruct Hfails as [Hfails|[e Hfails]];
       [ apply Hoff in Hfails; discriminate |];
       rewrite Hservice, Hcalls, Hfails
     | ]);
    eexists _, _; (split; [reflexivity|]);
    erewrite get_merge_written by apply fields_set_eq;
    apply negb_false_iff.
  - unfold get_or_empty, get in *.
    by destruct (fields state !! "generated_code").
  - destruct (truthy_Some _ Hgiven) as [s Hs].
    rewrite (get_or_empty_of_get _ _ _ Hs). rewrite Hs in *.
    by apply invalid_code_app.
  - unfold get_or_empty, get in *.
    by destruct (fields state !! "test_cases").
  - destruct (truthy_Some _ Hgiven) as [s Hs].
    rewrite (get_or_empty_of_get _ _ _ Hs). rewrite Hs in *.
    by apply invalid_tests_app.
Qed.

Lemma failed_repair_without_clients :
  consults n_fix_code_after_code_review state_with_rejected_code = true
  /\ passes n_code_review state_with_rejected_code = false
  /\ generation_fails without_clients (get state_with_rejected_code "llm_provider")
  /\ exists (result : WorkflowState) (env' : Env),
       fix_code_after_code_review state_with_rejected_code without_clients
       = (Returned result, env')
       /\ passes n_code_review (merge state_with_rejected_code result) = false.
Proof.
  assert (Hconsults : consults n_fix_code_after_code_review state_with_rejected_code = true)
    by (vm_compute; reflexivity).
  assert (Hrejected : passes (reviewed_by n_fix_code_after_code_review)
                        state_with_rejected_code = false)
    by (vm_compute; reflexivity).
  assert (Hfails : generation_fails without_clients
                     (get state_with_rejected_code "llm_provider"))
    by (left; vm_compute; reflexivity).
  split; [exact Hconsults|]. split; [exact Hrejected|]. split; [exact Hfails|].
  exact (failed_repair_is_rejected_again n_fix_code_after_code_review
           state_with_rejected_code without_clients (or_introl eq_refl)
           Hconsults Hrejected Hfails).
Defined.

(** ** The progress tracker *)

Lemma index_bounds steps step :
  -1 <= index_or_minus_one steps step < Z.of_nat (length steps).
Proof.
  induction steps as [|first rest IH]; simpl; [lia|].
  destruct (String.eqb first step); [lia|].
  destruct (Z.ltb_spec (index_or_minus_one rest step) 0); lia.
Qed.

Lemma index_known steps step :
  0 <= index_or_minus_one steps step <-> In step steps.
Proof.
  induction steps as [|first rest IH]; simpl; [lia|].
  destruct (String.eqb_spec first step) as [->|Hne]; [intuition lia|].
  destruct (Z.ltb_spec (index_or_minus_one rest step) 0); split.
  - lia.
  - intros [?|Hin]; [done|]. apply IH in Hin. lia.
  - intros _. right. apply IH. lia.
  - lia.
Qed.

Lemma furthest_commutes (h ia ib : Z) :
  (let h' := if h <? ib then ib else h in if h' <? ia then ia else h')
  = (let h' := if h <? ia then ia else h in if h' <? ib then ib else h').
Proof.
  cbv zeta. destruct (Z.ltb_spec h ib), (Z.ltb_spec h ia);
    repeat match goal with |- context [?x <? ?y] => destruct (Z.ltb_spec x y) end; lia.
Qed.

Lemma furthest_again (h ia : Z) :
  (let h' := if h <? ia then ia else h in if h' <? ia then ia else h')
  = (if h <? ia then ia else h).
Proof.
  cbv zeta. destruct (Z.ltb_spec h ia);
    repeat match goal with |- context [?x <? ?y] => destruct (Z.ltb_spec x y) end; lia.
Qed.

(** X14: [mark_step_complete] can be called in any order and any number of
    times: two marks commute, and a mark repeated changes nothing. *)
Theorem marks_commute (a b : string) (session : Tracker) :
  mark_step_complete a (mark_step_complete b session)
  = mark_step_complete b (mark_step_complete a session)
  /\ mark_step_complete a (mark_step_complete a session)
     = mark_step_complete a session.
Proof.
  unfold mark_step_complete; cbn [completed_steps highest_step default id].
  generalize (index_or_minus_one WORKFLOW_STEPS a) as ia.
  generalize (index_or_minus_one WORKFLOW_STEPS b) as ib.
  generalize (default (-1) (highest_step session)) as h.
  generalize (default ∅ (completed_steps session)) as c.
  intros c h ib ia. split; f_equal.
  - f_equal. by rewrite <- !(assoc_L (∪)), (comm_L (∪) {[ b ]}).
  - f_equal. apply furthest_commutes.
  - f_equal. by rewrite <- (assoc_L (∪)), (idemp_L (∪)).
  - f_equal. apply furthest_again.
Qed.

Section Marks.
Context (index_of : string -> Z).

(** [mark_step_complete], whatever the index of a step is. *)
Abbreviation mark :=
  (fun (step : string) (session : Tracker) =>
     {| completed_steps := Some (default ∅ (completed_steps session) ∪ {[ step ]});
        highest_step :=
          Some (if default (-1) (highest_step session) <? index_of step
                then index_of step else default (-1) (highest_step session)) |}).

Lemma mark_highest step session :
  highest_step (mark step session)
  = Some (Z.max (default (-1) (highest_step session)) (index_of step)).
Proof.
  cbn [highest_step]. f_equal.
  destruct (Z.ltb_spec (default (-1) (highest_step session)) (index_of step)); lia.
Qed.

Lemma marks_outcome (session : Tracker) (steps : list string) :
  steps <> [] ->
  exists h : Z,
    highest_step (foldr mark session steps) = Some h
    /\ default (-1) (highest_step session) <= h
    /\ Forall (fun step => index_of step <= h) steps
    /\ (h = default (-1) (highest_step session)
        \/ Exists (fun step => index_of step = h) steps)
    /\ completed_steps (foldr mark session steps)
       = Some (default ∅ (completed_steps session) ∪ list_to_set steps).
Proof.
  induction steps as [|step steps IH]; [done|]. intros _.
  cbn [foldr]. rewrite mark_highest. cbn [completed_steps].
  destruct steps as [|next steps].
  - cbn [foldr]. eexists. split; [reflexivity|].
    split; [lia|]. split; [constructor; [lia|constructor]|]. split.
    + destruct (Z.max_spec (default (-1) (highest_step session)) (index_of step))
        as [[_ ->]|[_ ->]]; [right; by constructor|by left].
    + f_equal. cbn [list_to_set foldr]. by rewrite (right_id_L ∅ (∪)).
  - destruct IH as (h & Hh & Hle & Hall & Hsome & Hdone); [done|].
    rewrite Hh, Hdone. cbn [default id]. eexists. split; [reflexivity|].
    split; [lia|]. split.
    + constructor; [lia|]. eapply Forall_impl; [exact Hall|].
      intros other Hother. cbv beta in Hother |- *. lia.
    + split.
      * destruct (Z.max_spec h (index_of step))
          as [[_ ->]|[_ ->]]; [right; by constructor|].
        destruct Hsome as [->|Hex]; [by left|right; by constructor].
      * f_equal. change (list_to_set (step :: next :: steps))
          with ({[ step ]} ∪ list_to_set (C := gset string) (next :: steps)).
        by rewrite <- (assoc_L (∪)), (comm_L (∪) _ {[ step ]}).
Qed.

End Marks.

(** X15: after any marks, [highest_step] is the largest of the index it
    held (-1 when absent) and the indices of the marked steps, a step
    outside [WORKFLOW_STEPS] counting as -1; and [completed_steps] holds what
    it held and every marked step, known or not. *)
Theorem highest_step_is_the_furthest_mark (session : Tracker) (steps : list string) :
  steps <> [] ->
  exists h : Z,
    highest_step (foldr mark_step_complete session steps) = Some h
    /\ default (-1) (highest_step session) <= h <= Z.max (default (-1) (highest_step session)) 12
    /\ Forall (fun step => index_or_minus_one WORKFLOW_STEPS step <= h) steps
    /\ (h = default (-1) (highest_step session)
        \/ Exists (fun step => index_or_minus_one WORKFLOW_STEPS step = h) steps)
    /\ (forall step, ~ In step WORKFLOW_STEPS ->
        index_or_minus_one WORKFLOW_STEPS step = -1)
    /\ completed_steps (foldr mark_step_complete session steps)
       = Some (default ∅ (completed_steps session) ∪ list_to_set steps).
Proof.
  intros Hsteps.
  destruct (marks_outcome (index_or_minus_one WORKFLOW_STEPS) session steps Hsteps)
    as (h & Hh & Hle & Hall & Hsome & Hdone).
  exists h. split; [exact Hh|]. split.
  { split; [exact Hle|]. destruct Hsome as [->|Hex]; [lia|].
    apply Exists_exists in Hex as (step & _ & <-).
    pose proof (index_bounds WORKFLOW_STEPS step) as Hbound.
    change (Z.of_nat (length WORKFLOW_STEPS)) with 13 in Hbound. lia. }
  split; [exact Hall|]. split; [exact Hsome|]. split; [|exact Hdone].
  intros step Hunknown.
  pose proof (index_bounds WORKFLOW_STEPS step) as Hbound.
  pose proof (index_known WORKFLOW_STEPS step) as Hknown.
  destruct (Z_le_gt_dec 0 (index_or_minus_one WORKFLOW_STEPS step)) as [Hpos|Hneg];
    [by apply Hknown in Hpos|lia].
Qed.

Lemma highest_step_after_two_marks :
  ["code"; "requirements"] <> []
  /\ exists h : Z,
       highest_step (foldr mark_step_complete (reset (mkTracker None (Some 7)))
                       ["code"; "requirements"]) = Some h
       /\ index_or_minus_one WORKFLOW_STEPS "code" <= h.
Proof.
  assert (Hsteps : ["code"; "requirements"] <> []) by discriminate.
  split; [exact Hsteps|].
  destruct (highest_step_is_the_furthest_mark (reset (mkTracker None (Some 7)))
              ["code"; "requirements"] Hsteps) as (h & Hh & _ & Hall & _).
  exists h. split; [exact Hh|].
  exact (Forall_inv Hall).
Defined.

(** ** The progress bar *)

Lemma filter_all {A : Type} (P : A -> Prop) `{forall x, Decision (P x)} (l : list A) :
  length (filter P l) = length l <-> Forall P l.
Proof.
  induction l as [|x l IH]; [by split|].
  rewrite filter_cons. pose proof (length_filter P l) as Hle.
  destruct (decide (P x)) as [HP|HP]; cbn [length].
  - split; [intros [= Hlen]; constructor; [done|by apply IH]|].
    intros Hall. f_equal. apply IH. by inversion Hall.
  - split; [lia|]. intros Hall. by inversion Hall.
Qed.

Lemma indicators_length completed highest i steps :
  length (indicators completed highest i steps) = length steps.
Proof.
  revert i. induction steps as [|step steps IH]; intros i; [done|].
  cbn [indicators length]. by rewrite IH.
Qed.

Lemma indicators_past completed highest i steps :
  match highest with Some h => h + 1 < i | None => True end ->
  count_occ indicator_eq_dec (indicators completed highest i steps) Next_step = 0%nat.
Proof.
  revert i. induction steps as [|step steps IH]; intros i Hpast; [done|].
  cbn [indicators]. rewrite count_occ_cons_neq.
  - apply IH. destruct highest; [lia|done].
  - case_bool_decide; [done|]. destruct highest as [h|]; [|done].
    destruct (Z.eqb_spec i (h + 1)); [lia|done].
Qed.

Lemma indicators_one_next completed highest i steps :
  (count_occ indicator_eq_dec (indicators completed highest i steps) Next_step <= 1)%nat.
Proof.
  revert i. induction steps as [|step steps IH]; intros i; [simpl; lia|].
  cbn [indicators].
  destruct highest as [h|].
  - destruct (Z.eqb_spec i (h + 1)) as [->|Hne].
    + pose proof (indicators_past completed (Some h) (h + 1 + 1) steps ltac:(cbv iota beta; lia)) as Hrest.
      case_bool_decide.
      * rewrite count_occ_cons_neq by done. lia.
      * rewrite count_occ_cons_eq by done. lia.
    + rewrite count_occ_cons_neq by (by case_bool_decide). apply IH.
  - rewrite count_occ_cons_neq by (by case_bool_decide).
    pose proof (indicators_past completed None (i + 1) steps I). lia.
Qed.

Lemma indicators_completed completed highest steps : forall i (k : nat),
  indicators completed highest i steps !! k = Some Completed
  <-> exists step, steps !! k = Some step /\ step ∈ completed.
Proof.
  induction steps as [|step steps IH]; intros i k.
  - split; [done|]. by intros (step & ? & _).
  - cbn [indicators]. destruct k as [|k]; [|apply IH].
    cbn. split.
    + case_bool_decide as Hin; [by exists step|].
      destruct highest as [h|]; [|done]. by destruct (i =? h + 1).
    + intros (step' & [= <-] & Hin). by rewrite bool_decide_eq_true_2.
Qed.

(** X16: [render_progress_tracker] creates the set of completed steps when
    it is absent and changes nothing else; the percentage is between 0 and
    100, and 100 exactly when all thirteen steps are completed; every step
    gets one indicator, the check mark exactly for the completed steps, and
    at most one step is shown as the next one. *)
Theorem progress_bar (session : Tracker) :
  let completed := default ∅ (completed_steps session) in
  match render_progress_tracker session with
  | (session', percent, shown) =>
      session' = mkTracker (Some completed) (highest_step session)
      /\ 0 <= percent <= 100
      /\ (percent = 100 <-> Forall (fun step => step ∈ completed) WORKFLOW_STEPS)
      /\ length shown = length WORKFLOW_STEPS
      /\ (count_occ indicator_eq_dec shown Next_step <= 1)%nat
      /\ forall k : nat,
           shown !! k = Some Completed
           <-> exists step, WORKFLOW_STEPS !! k = Some step /\ step ∈ completed
  end.
Proof.
  intros completed. unfold render_progress_tracker. fold completed.
  cbn [highest_step].
  pose proof (length_filter (fun step => step ∈ completed) WORKFLOW_STEPS) as Hle.
  pose proof (filter_all (fun step => step ∈ completed) WORKFLOW_STEPS) as Hall.
  change (length WORKFLOW_STEPS) with 13%nat in *.
  generalize dependent (length (filter (fun step => step ∈ completed) WORKFLOW_STEPS)).
  intros count Hle Hall.
  change (0 <? Z.of_nat 13) with true. cbv iota.
  change (Z.of_nat 13) with 13.
  split; [reflexivity|]. split; [|split; [|split; [|split]]].
  - split; [apply Z.div_pos; lia|apply Z.div_le_upper_bound; lia].
  - rewrite <- Hall. split.
    + intros Hfull.
      assert (Z.of_nat count * 100 / 13 < 100 \/ count = 13%nat) as [Hlt|Heq]; [|lia|done].
      destruct (decide (count = 13%nat)) as [|Hne]; [by right|left].
      apply Z.div_lt_upper_bound; lia.
    + intros ->. reflexivity.
  - apply (indicators_length completed (highest_step session) 0 WORKFLOW_STEPS).
  - apply indicators_one_next.
  - intros k. apply indicators_completed.
Qed.

(** ** The providers *)

Lemma store_has provider table : provider ∈ store provider table.
Proof. unfold store. case_bool_decide; [done|]. set_solver. Qed.

Lemma store_keeps provider other table : other ∈ table -> other ∈ store provider table.
Proof. unfold store. case_bool_decide; [done|]. set_solver. Qed.

Ltac provider_listed Hkey :=
  split;
  [ intros Hin;
    first [ left; reflexivity
          | right; split; [apply Hkey; reflexivity|reflexivity]
          | exfalso; not_listed Hin ]
  | intros [Ht|[Hk Ht]];
    first [ by listed
          | discriminate Ht
          | apply Hkey in Hk; discriminate Hk ] ].

Lemma initialize_outcome (groq_api_key google_api_key : string)
  (groq_client google_client : bool) (module : Providers) :
  consistent module ->
  match initialize_llm_clients groq_api_key google_api_key
          groq_client google_client module with
  | (available_providers, module') =>
      consistent module'
      /\ (forall p, p ∈ available_providers -> p ∈ clients module' /\ p <> "")
      /\ (forall p, p ∈ clients module -> p ∈ clients module')
      /\ DEFAULT_LLM_PROVIDER module' = head available_providers
      /\ ("groq" ∈ available_providers
          <-> groq_available module = true
              \/ (groq_api_key <> "" /\ groq_client = true))
      /\ ("google" ∈ available_providers
          <-> google_available module = true
              \/ (google_api_key <> "" /\ google_client = true))
      /\ (groq_available module' = true ->
          DEFAULT_LLM_PROVIDER module' = Some "groq")
  end.
Proof.
  intros [Hgroq Hgoogle]. unfold initialize_llm_clients.
  assert (Hkey : forall key, truthy (Some key) = true <-> key <> "")
    by (intros [|c key]; split; (done || discriminate)).
  pose proof (Hkey groq_api_key) as Hk1. pose proof (Hkey google_api_key) as Hk2.
  destruct (truthy (Some groq_api_key)), groq_client, (truthy (Some google_api_key)),
    google_client; cbn -[store elem_of];
    destruct (groq_available module) eqn:Hg1, (google_available module) eqn:Hg2;
    cbn -[store elem_of];
    try specialize (Hgroq eq_refl); try specialize (Hgoogle eq_refl);
    (split; [split; cbn [groq_available google_available clients]; intros Ht;
             try discriminate Ht; eauto using store_has, store_keeps|]);
    (split; [intros p Hp;
             repeat (apply elem_of_cons in Hp as [->|Hp]);
             try (by apply elem_of_nil in Hp);
             (split; [eauto using store_has, store_keeps|discriminate])|]);
    (split; [intros p Hp; eauto using store_keeps|]);
    (split; [reflexivity|]);
    (split; [provider_listed Hk1|]);
    (split; [provider_listed Hk2|]);
    intros Ht; (reflexivity || discriminate Ht).
Qed.

(** X17: [initialize_llm_clients], from a module whose flags tell the
    truth: the flags still do; every provider it returns is named and has a
    client; no client is lost; the default provider is the first one
    returned, ["groq"] when it is available; and a provider is returned
    exactly when it was available before or its key is set and its client
    could be built -- a provider once available stays so, whatever the keys
    are now. *)
Theorem initialized_providers_have_clients (groq_api_key google_api_key : string)
  (groq_client google_client : bool) (module : Providers) :
  consistent module ->
  match initialize_llm_clients groq_api_key google_api_key
          groq_client google_client module with
  | (available_providers, module') =>
      consistent module'
      /\ (forall p, p ∈ available_providers -> p ∈ clients module' /\ p <> "")
      /\ (forall p, p ∈ clients module -> p ∈ clients module')
      /\ DEFAULT_LLM_PROVIDER module' = head available_providers
      /\ ("groq" ∈ available_providers
          <-> groq_available module = true
              \/ (groq_api_key <> "" /\ groq_client = true))
      /\ ("google" ∈ available_providers
          <-> google_available module = true
              \/ (google_api_key <> "" /\ google_client = true))
      /\ (groq_available module' = true ->
          DEFAULT_LLM_PROVIDER module' = Some "groq")
  end.
Proof. apply initialize_outcome. Qed.

Lemma consistent_no_providers : consistent no_providers.
Proof. split; discriminate. Qed.

Lemma initialized_with_a_groq_key :
  consistent no_providers
  /\ match initialize_llm_clients "gsk_key" "" true true no_providers with
     | (available_providers, module') =>
         (forall p, p ∈ available_providers -> p ∈ clients module' /\ p <> "")
         /\ DEFAULT_LLM_PROVIDER module' = head available_providers
     end.
Proof.
  split; [exact consistent_no_providers|].
  pose proof (initialized_providers_have_clients "gsk_key" "" true true
                no_providers consistent_no_providers) as Hinit.
  destruct (initialize_llm_clients "gsk_key" "" true true no_providers)
    as [available_providers module'].
  destruct Hinit as (_ & Hclients & _ & Hdefault & _).
  split; [exact Hclients|exact Hdefault].
Defined.

(** X18: a provider that [initialize_llm_clients] returned is handed out by
    [get_llm], from the table the initialisation left, as long as the quota
    protection is off or calls are left. *)
Theorem offered_provider_is_served (groq_api_key google_api_key : string)
  (groq_client google_client : bool) (module : Providers)
  (state : WorkflowState) (env : Env) (p : string) :
  consistent module ->
  p ∈ fst (initialize_llm_clients groq_api_key google_api_key
             groq_client google_client module) ->
  llm_clients env
  = clients (snd (initialize_llm_clients groq_api_key google_api_key
                    groq_client google_client module)) ->
  get state "llm_provider" = Some p ->
  enable_quota_protection env = false \/ api_calls env < max_api_calls env ->
  fst (get_llm state env) = Returned (Some p).
Proof.
  intros Hmodule Hin Hclients Hprovider Hquota.
  pose proof (initialize_outcome groq_api_key google_api_key groq_client
                google_client module Hmodule) as Hinit.
  destruct (initialize_llm_clients groq_api_key google_api_key groq_client
              google_client module) as [available_providers module'].
  cbn [fst snd] in *. destruct Hinit as (_ & Hserved & _).
  destruct (Hserved p Hin) as [Hclient Hname].
  unfold get_llm. rewrite Hprovider, Hclients.
  assert (Hopen : enable_quota_protection env && (max_api_calls env <=? api_calls env)
                  = false).
  { destruct Hquota as [->|Hlt]; [done|]. apply andb_false_iff. right.
    apply Z.leb_gt. lia. }
  rewrite Hopen. rewrite bool_decide_eq_true_2 by exact Hclient.
  destruct p as [|c p]; [done|]. reflexivity.
Qed.

Lemma offered_provider_is_served_on_page :
  consistent no_providers
  /\ "groq" ∈ fst (initialize_llm_clients "gsk_key" "" true true no_providers)
  /\ llm_clients (answering "")
     = clients (snd (initialize_llm_clients "gsk_key" "" true true no_providers))
  /\ get fresh_state "llm_provider" = Some "groq"
  /\ fst (get_llm fresh_state (answering "")) = Returned (Some "groq").
Proof.
  assert (Hin : "groq" ∈ fst (initialize_llm_clients "gsk_key" "" true true no_providers))
    by apply list_elem_of_here.
  assert (Hclients : llm_clients (answering "")
            = clients (snd (initialize_llm_clients "gsk_key" "" true true no_providers)))
    by reflexivity.
  assert (Hprovider : get fresh_state "llm_provider" = Some "groq") by reflexivity.
  split; [exact consistent_no_providers|]. split; [exact Hin|].
  split; [exact Hclients|]. split; [exact Hprovider|].
  apply (offered_provider_is_served "gsk_key" "" true true no_providers
           fresh_state (answering "") "groq" consistent_no_providers Hin Hclients Hprovider).
  right. reflexivity.
Defined.
